(** * Index-stable append-only sequences: ChunkList, TrimList, ChunkListAdapter

  A shallow embedding of
    - src/collections/chunk_list/chunk_list.py   (class ChunkList)
    - src/collections/trim_list/trim_list.py     (classes TrimList, TrimListWrapper)
    - demos/demo_trimmable_list_benchmark.py     (class ChunkListAdapter)
  Python integers are [Z]; a Python list or deque is a [list]; an
  [Optional[_T]] is an [option T] whose [None] is Python's [None]; a call
  that can raise returns an [outcome]. *)

From Stdlib Require Import ZArith Lia.
From stdpp Require Import base option list.

Local Open Scope Z_scope.

(** ** Python runtime fragments used by the three classes *)

Module Py.

(** The exceptions the modelled code can raise. *)
Inductive exn : Type :=
| IndexError        (* list / deque index out of range, pop from an empty deque *)
| AssertionError    (* a failed [assert] *)
| TypeError         (* range(None, ...) *)
| ValueError        (* range(a, b, 0) *)
| Exception.        (* the bare [Exception] raised by ChunkList.enumerate *)

(** Result of a call: a returned value or a raised exception. *)
Inductive outcome (A : Type) : Type :=
| Ret (a : A)
| Raise (e : exn).
Arguments Ret {A} a.
Arguments Raise {A} e.

Definition bind {A B} (m : outcome A) (k : A -> outcome B) : outcome B :=
  match m with
  | Ret a => k a
  | Raise e => Raise e
  end.

#[export] Instance outcome_ret : MRet outcome := fun A a => Ret a.
#[export] Instance outcome_bind : MBind outcome := fun A B k m => bind m k.
#[export] Instance outcome_fmap : FMap outcome :=
  fun A B f m => bind m (fun a => Ret (f a)).

(** [assert cond] *)
Definition assert (cond : bool) : outcome unit :=
  if cond then Ret tt else Raise AssertionError.

(** [len(l)] *)
Definition len {A} (l : list A) : Z := Z.of_nat (length l).

(** Position addressed by the subscript [i] in a sequence of [n] items:
    [0 <= i < n] addresses [i], [-n <= i < 0] addresses [n + i], anything
    else is out of range. *)
Definition position (n : Z) (i : Z) : option nat :=
  if (0 <=? i) && (i <? n) then Some (Z.to_nat i)
  else if (- n <=? i) && (i <? 0) then Some (Z.to_nat (n + i))
  else None.

(** [l[i]] on a list or a deque. *)
Definition getitem {A} (l : list A) (i : Z) : outcome A :=
  match position (len l) i with
  | Some p => match l !! p with
              | Some x => Ret x
              | None => Raise IndexError
              end
  | None => Raise IndexError
  end.

(** [l[i] = x] on a list. *)
Definition setitem {A} (l : list A) (i : Z) (x : A) : outcome (list A) :=
  match position (len l) i with
  | Some p => Ret (<[p := x]> l)
  | None => Raise IndexError
  end.

(** [deque.popleft()] *)
Definition popleft {A} (d : list A) : outcome (A * list A) :=
  match d with
  | [] => Raise IndexError
  | x :: d' => Ret (x, d')
  end.

(** A [range] object. *)
Record range : Type := mkrange { r_start : Z; r_stop : Z; r_step : Z }.

(** [len(range(start, stop, step))] *)
Definition range_len (r : range) : Z :=
  if 0 <? r_step r then
    (if r_start r <? r_stop r
     then (r_stop r - r_start r - 1) / r_step r + 1 else 0)
  else if r_step r <? 0 then
    (if r_stop r <? r_start r
     then (r_start r - r_stop r - 1) / (- r_step r) + 1 else 0)
  else 0.

(** The items a [for] loop over the range visits, in order. *)
Definition range_items (r : range) : list Z :=
  (fun k => r_start r + Z.of_nat k * r_step r) <$> seq 0 (Z.to_nat (range_len r)).

(** [range(a, b, c)] built from the fields of a [slice]: a [None] field is
    not an integer, and a zero step is refused. *)
Definition range_of (a b c : option Z) : outcome range :=
  match a, b, c with
  | Some a, Some b, Some c =>
      if c =? 0 then Raise ValueError else Ret (mkrange a b c)
  | _, _, _ => Raise TypeError
  end.

End Py.
Import Py.

(** Sequencing of [f] over [l], stopping at the first exception. *)
Fixpoint for_each {A B} (f : A -> outcome B) (l : list A) : outcome (list B) :=
  match l with
  | [] => Ret []
  | a :: l' => b ← f a; bs ← for_each f l'; Ret (b :: bs)
  end.

(** ** chunk_list.py: class ChunkList *)

Module ChunkList.
Section ChunkList.
Context {T : Type}.

Definition _BITS : Z := 7.
Definition _MASK : Z := 127.
Definition _CHUNKSIZE : Z := 128.
Definition _LEVELS : Z := 3.

(** [_data: list[list[list[_T]]]]: three levels of 128-slot lists; a slot
    of an upper level is [None] until its chunk is allocated, a slot of
    the last level is [None] until an item is stored. *)
Abbreviation leaf := (list (option T)).
Abbreviation mid := (list (option leaf)).
Abbreviation root := (list (option mid)).

(** A buffer kept in [_pool]: [_pool_reclaim] has overwritten each of its
    slots with [None], so a slot has no other content. *)
Abbreviation buffer := (list (option Empty_set)).

Record t : Type := mk {
  _data : root;
  _pool : list buffer;
  _start : Z;
  _stop : Z
}.

Definition with_data (self : t) (d : root) : t :=
  mk d (_pool self) (_start self) (_stop self).
Definition with_pool (self : t) (p : list buffer) : t :=
  mk (_data self) p (_start self) (_stop self).
Definition with_stop (self : t) (n : Z) : t :=
  mk (_data self) (_pool self) (_start self) n.

(** [_pool_getnew]: [[None] * 128] *)
Definition _pool_getnew {A} : list (option A) :=
  replicate (Z.to_nat _CHUNKSIZE) None.

(** A pooled buffer taken into use at some level. *)
Definition reuse {A} (obj : buffer) : list (option A) :=
  (fun _ => None) <$> obj.

(** [_pool_get]: pop the last pooled buffer, or make a new one. *)
Definition _pool_get {A} (self : t) : outcome (list (option A) * t) :=
  if 0 <? len (_pool self) then
    match reverse (_pool self) with
    | obj :: rest =>
        _ ← assert (len obj =? _CHUNKSIZE);
        Ret (reuse obj, with_pool self (reverse rest))
    | [] => Raise IndexError
    end
  else Ret (_pool_getnew, self).


(** [__init__] *)
Definition __init__ : t := mk _pool_getnew [] 0 0.

(** [_decompose] *)
Definition _decompose (idx : Z) : Z * Z * Z * Z :=
  let bits := _BITS in
  let mask := _MASK in
  let idx3 := Z.land idx mask in
  let idx := Z.shiftr idx bits in
  let idx2 := Z.land idx mask in
  let idx := Z.shiftr idx bits in
  let idx1 := Z.land idx mask in
  let idx := Z.shiftr idx bits in
  (idx, idx1, idx2, idx3).

(** [_compose]; the two assertions hold by typing. *)
Definition _compose (key : Z * Z * Z * Z) : Z :=
  let '(key0, key1, key2, key3) := key in
  let c := _CHUNKSIZE in
  ((key0 * c + key1) * c + key2) * c + key3.

(** [put]: the chunk at [k1] and then the chunk at [k2] are taken from
    the pool when their slot is [None]; the item is stored at [k3]. The
    stores into the nested lists are written back along the path. *)
Definition put (self : t) (idx : Z) (item : option T) : outcome t :=
  let '(_, k1, k2, k3) := _decompose idx in
  c1 ← getitem (_data self) k1;
  '(l2, self) ← match c1 with
                | None => _pool_get self
                | Some l2 => Ret (l2, self)
                end;
  c2 ← getitem l2 k2;
  '(l3, self) ← match c2 with
                | None => _pool_get self
                | Some l3 => Ret (l3, self)
                end;
  l3 ← setitem l3 k3 item;
  l2 ← setitem l2 k2 (Some l3);
  d ← setitem (_data self) k1 (Some l2);
  Ret (with_data self d).

(** [append]. Its docstring: the first item is assigned index 0, each item
    thereafter the next index, and the returned index does not wrap around. *)
Definition append (self : t) (item : T) : outcome (t * Z) :=
  let idx := _stop self in
  let self := with_stop self (_stop self + 1) in
  self ← put self idx (Some item);
  Ret (self, idx).

(** [get] *)
Definition get (self : t) (idx : Z) : outcome (option T) :=
  if negb ((_start self <=? idx) && (idx <? _stop self)) then Ret None
  else
    let '(_, k1, k2, k3) := _decompose idx in
    c1 ← getitem (_data self) k1;
    match c1 with
    | None => Ret None
    | Some l2 =>
        c2 ← getitem l2 k2;
        match c2 with
        | None => Ret None
        | Some l3 => getitem l3 k3
        end
    end.

(** [keyrange] *)
Definition keyrange (self : t) : range := mkrange (_start self) (_stop self) 1.

(** The argument of [enumerate]. *)
Inductive selector : Type :=
| SelNone                                   (* omitted *)
| SelSlice (start stop step : option Z)     (* a [slice] *)
| SelRange (r : range)                      (* a [range] *)
| SelIterable (l : list Z)                  (* another iterable of integers *)
| SelOther.                                 (* anything else *)

(** [isinstance(_slice, (slice, range)) and _slice.step in (None, 1)]:
    the start and stop fields when the test succeeds. *)
Definition unit_step (sel : selector) : option (option Z * option Z) :=
  match sel with
  | SelSlice a b None => Some (a, b)
  | SelSlice a b (Some c) => if c =? 1 then Some (a, b) else None
  | SelRange r => if r_step r =? 1 then Some (Some (r_start r), Some (r_stop r)) else None
  | _ => None
  end.

(** [yield (idx, self.get(idx))] *)
Definition pair_at (self : t) (idx : Z) : outcome (Z * option T) :=
  v ← get self idx; Ret (idx, v).

(** [enumerate], consumed to its end on an unchanging list: the pairs it
    yields, or the exception that ends it. *)
Definition enumerate (self : t) (_slice : selector) : outcome (list (Z * option T)) :=
  let _slice := match _slice with
                | SelNone => SelRange (keyrange self)
                | _ => _slice
                end in
  match unit_step _slice with
  | Some (a, b) =>
      let start := match a with
                   | None => _start self
                   | Some start => if start <? 0 then start + _stop self else start
                   end in
      let stop := match b with
                  | None => _stop self
                  | Some stop => if stop <? 0 then stop + _stop self else stop
                  end in
      let start := Z.max start (_start self) in
      let stop := Z.min stop (_stop self) in
      if negb (start <? stop) then Ret []
      else for_each (pair_at self) (range_items (mkrange start stop 1))
  | None =>
      _slice ← match _slice with
               | SelSlice a b c => SelRange <$> range_of a b c
               | _ => Ret _slice
               end;
      let in_window idx := (_start self <=? idx) && (idx <? _stop self) in
      match _slice with
      | SelRange r => for_each (pair_at self) (filter (fun idx => Is_true (in_window idx)) (range_items r))
      | SelIterable l => for_each (pair_at self) (filter (fun idx => Is_true (in_window idx)) l)
      | _ => Raise Exception
      end
  end.

(** A write made on the list. *)
Inductive call : Type :=
| Append (item : T)
| Put (idx : Z) (item : option T).

(** One write; it reports the index written (the one [append] returned,
    or the argument of [put]) and the item stored there. *)
Definition step (self : t) (c : call) : outcome (t * (Z * option T)) :=
  match c with
  | Append item => '(self, idx) ← append self item; Ret (self, (idx, Some item))
  | Put idx item => self ← put self idx item; Ret (self, (idx, item))
  end.

(** The writes in order on [self]; the final list and the log of writes. *)
Fixpoint run (self : t) (cs : list call) : outcome (t * list (Z * option T)) :=
  match cs with
  | [] => Ret (self, [])
  | c :: cs' =>
      '(self, w) ← step self c;
      '(self, ws) ← run self cs';
      Ret (self, w :: ws)
  end.

End ChunkList.
Arguments t : clear implicits.
Arguments selector : clear implicits.
Arguments call : clear implicits.
End ChunkList.

(** The value most recently written at index [i] according to a log of
    writes (oldest first); [None] when the log has no write at [i]. *)
Fixpoint last_write {V} (log : list (Z * V)) (i : Z) : option V :=
  match log with
  | [] => None
  | (j, v) :: log' =>
      match last_write log' i with
      | Some w => Some w
      | None => if i =? j then Some v else None
      end
  end.

(** ** trim_list.py: classes TrimList and TrimListWrapper *)

Module TrimList.
Section TrimList.
Context {T : Type}.

Record t : Type := mk {
  _data : list T;      (* the deque, leftmost item first *)
  _pop_count : Z
}.

(** The subscript of [__getitem__]. *)
Inductive subscript : Type :=
| SubInt (idx : Z)
| SubSlice (start stop step : option Z)
| SubIterable (l : list Z)        (* a range or another iterable, as the items it holds *)
| SubOther.                       (* neither an integer, a slice nor an iterable *)

(** [TrimListWrapper]: the index map; the upstream list is the [TrimList]
    the wrapper was made from. *)
Record wrapper : Type := mkwrapper { _idx_map : list Z }.

(** [__init__] *)
Definition __init__ : t := mk [] 0.

(** [__len__] *)
Definition __len__ (self : t) : Z := _pop_count self + len (_data self).

(** [indexrange] *)
Definition indexrange (self : t) : range :=
  let start := _pop_count self in
  let cur_len := len (_data self) in
  mkrange start (start + cur_len) 1.

(** [__getitem__]: an item for an integer subscript, a wrapper otherwise. *)
Definition __getitem__ (self : t) (_slice : subscript) : outcome (T + wrapper) :=
  match _slice with
  | SubInt idx => inl <$> getitem (_data self) (idx - _pop_count self)
  | SubSlice a b c => r ← range_of a b c; Ret (inr (mkwrapper (range_items r)))
  | SubIterable l => Ret (inr (mkwrapper l))
  | SubOther => Raise AssertionError
  end.

(** [TrimListWrapper.__getitem__] *)
Definition wrapper_getitem (upstream : t) (w : wrapper) (idx : Z)
  : outcome (T + wrapper) :=
  i ← getitem (_idx_map w) idx; __getitem__ upstream (SubInt i).

(** [append] *)
Definition append (self : t) (value : T) : t * Z :=
  let idx := len (_data self) in
  (mk (_data self ++ [value]) (_pop_count self), idx + _pop_count self).

(** [pop_left] *)
Definition pop_left (self : t) : outcome (t * option T) :=
  if len (_data self) =? 0 then Ret (self, None)
  else
    '(value, d) ← popleft (_data self);
    Ret (mk d (_pop_count self + 1), Some value).

(** The loop of [trim_before]: [n] times, pop the leftmost item of the
    deque and append it to [trimmed_values]. *)
Fixpoint trim_loop (n : nat) (d : list T) (trimmed_values : list T)
  : outcome (list T * list T) :=
  match n with
  | O => Ret (d, trimmed_values)
  | S n' =>
      '(value, d) ← popleft d;
      trim_loop n' d (trimmed_values ++ [value])
  end.

(** [trim_before] *)
Definition trim_before (self : t) (idx : Z) : outcome (t * list T) :=
  let cur_len := len (_data self) in
  let target_len := Z.max 0 (cur_len + _pop_count self - idx) in
  let trim_count := Z.max 0 (cur_len - target_len) in
  '(d, trimmed_values) ← trim_loop (Z.to_nat trim_count) (_data self) [];
  Ret (mk d (_pop_count self + trim_count), trimmed_values).

(** A call of the benchmark's contract, and what it returned. *)
Inductive call : Type :=
| Append (value : T)
| TrimBefore (idx : Z)
| PopLeft.

Inductive returned : Type :=
| Index (idx : Z)              (* from [append] *)
| Trimmed (values : list T)    (* from [trim_before] *)
| Popped (value : option T).   (* from [pop_left] *)

Definition step (self : t) (c : call) : outcome (t * returned) :=
  match c with
  | Append value => let '(self, idx) := append self value in Ret (self, Index idx)
  | TrimBefore idx => '(self, values) ← trim_before self idx; Ret (self, Trimmed values)
  | PopLeft => '(self, value) ← pop_left self; Ret (self, Popped value)
  end.

(** The calls in order on [self]; the final list and the values returned. *)
Fixpoint run (self : t) (cs : list call) : outcome (t * list returned) :=
  match cs with
  | [] => Ret (self, [])
  | c :: cs' =>
      '(self, r) ← step self c;
      '(self, rs) ← run self cs';
      Ret (self, r :: rs)
  end.

(** The appended values, each with the index its [append] returned. *)
Fixpoint appended (cs : list call) (rs : list returned) : list (Z * T) :=
  match cs, rs with
  | Append value :: cs', Index idx :: rs' => (idx, value) :: appended cs' rs'
  | _ :: cs', _ :: rs' => appended cs' rs'
  | _, _ => []
  end.

(** How many items the calls handed back: the length of each trimmed list,
    and one for each [pop_left] made on a list that was not empty. *)
Fixpoint removed (cs : list call) (rs : list returned) : Z :=
  match cs, rs with
  | TrimBefore _ :: cs', Trimmed values :: rs' => len values + removed cs' rs'
  | PopLeft :: cs', Popped (Some _) :: rs' => 1 + removed cs' rs'
  | _ :: cs', _ :: rs' => removed cs' rs'
  | _, _ => 0
  end.

(** How many calls are [append]. *)
Fixpoint appends (cs : list call) : Z :=
  match cs with
  | [] => 0
  | Append _ :: cs' => 1 + appends cs'
  | _ :: cs' => appends cs'
  end.

End TrimList.
Arguments t : clear implicits.
Arguments call : clear implicits.
Arguments returned : clear implicits.
End TrimList.

(** ** demo_trimmable_list_benchmark.py: class ChunkListAdapter *)

Module ChunkListAdapter.
Section ChunkListAdapter.
Context {T : Type}.

Record t : Type := mk {
  _impl : ChunkList.t T;
  _trimmed : Z
}.

(** [__init__] *)
Definition __init__ : t := mk ChunkList.__init__ 0.

(** [append]: the index that [ChunkList.append] returns is dropped and the
    method ends without a [return]: the caller receives [None]. *)
Definition append (self : t) (value : T) : outcome (t * option Z) :=
  '(impl, _) ← ChunkList.append (_impl self) value;
  Ret (mk impl (_trimmed self), None).

(** [trim_before]; it returns [None]. *)
Definition trim_before (self : t) (idx : Z) : t :=
  mk (_impl self) (Z.max (_trimmed self) idx).

(** [indexrange] *)
Definition indexrange (self : t) : range :=
  let kr := ChunkList.keyrange (_impl self) in
  mkrange (_trimmed self) (r_stop kr) 1.

(** [__getitem__] *)
Definition __getitem__ (self : t) (idx : Z) : outcome (option T) :=
  if idx <? _trimmed self then Ret None
  else ChunkList.get (_impl self) idx.

(** [__len__] *)
Definition __len__ (self : t) : Z :=
  let kr := ChunkList.keyrange (_impl self) in
  r_stop kr.

(** The adapter's two mutating calls. *)
Inductive call : Type :=
| Append (value : T)
| TrimBefore (idx : Z).

Definition step (self : t) (c : call) : outcome (t * option Z) :=
  match c with
  | Append value => append self value
  | TrimBefore idx => Ret (trim_before self idx, None)
  end.

Fixpoint run (self : t) (cs : list call) : outcome (t * list (option Z)) :=
  match cs with
  | [] => Ret (self, [])
  | c :: cs' =>
      '(self, r) ← step self c;
      '(self, rs) ← run self cs';
      Ret (self, r :: rs)
  end.

(** How many calls are [append]. *)
Fixpoint appends (cs : list call) : Z :=
  match cs with
  | [] => 0
  | Append _ :: cs' => 1 + appends cs'
  | _ :: cs' => appends cs'
  end.

End ChunkListAdapter.
Arguments t : clear implicits.
Arguments call : clear implicits.
End ChunkListAdapter.

(** ** demo_trimmable_list_benchmark.py: the protocol and the benchmark *)

Module Benchmark.

(** [TrimmableList]: the protocol the benchmark drives, on lists of
    integers. [append] returns what the method returns ([None] for Python's
    [None]); the result of [trim_before] is never used; [getitem] is
    [test_subject[idx]] for an integer [idx], [None] when the result is not an
    integer. *)
Class TrimmableList (S : Type) : Type := {
  proto_append : S -> Z -> outcome (S * option Z);
  proto_trim_before : S -> Z -> outcome S;
  proto_indexrange : S -> range;
  proto_getitem : S -> Z -> outcome (option Z);
  proto_len : S -> Z
}.

(** [TrimList[int]] as a test subject. *)
#[global] Instance trim_list_subject : TrimmableList (TrimList.t Z) := {|
  proto_append self value :=
    let '(self, idx) := TrimList.append self value in Ret (self, Some idx);
  proto_trim_before self idx := fst <$> TrimList.trim_before self idx;
  proto_indexrange := TrimList.indexrange;
  proto_getitem self idx :=
    r ← TrimList.__getitem__ self (TrimList.SubInt idx);
    Ret (match r with inl value => Some value | inr _ => None end);
  proto_len := TrimList.__len__
|}.

(** [ChunkListAdapter] as a test subject. *)
#[global] Instance adapter_subject : TrimmableList (ChunkListAdapter.t Z) := {|
  proto_append := ChunkListAdapter.append;
  proto_trim_before self idx := Ret (ChunkListAdapter.trim_before self idx);
  proto_indexrange := ChunkListAdapter.indexrange;
  proto_getitem := ChunkListAdapter.__getitem__;
  proto_len := ChunkListAdapter.__len__
|}.

Section Benchmark.
(** Python floats, their [<] and [<=], and the literals [0.01] and [0.99]. *)
Variable float : Type.
Variable float_lt float_le : float -> float -> bool.
Variable float_0_01 float_0_99 : float.
(** [builtins.hash((idx,))], the test value of index [idx]. *)
Variable hash_of_index : Z -> Z.

(** [TrimmableListBenchmarkBase] *)
Record t : Type := mk {
  test_block_size : Z;
  blocks_to_add : Z;
  blocks_to_remove : Z;
  prob_add : float;
  prob_remove : float;
  test_data : list Z
}.

(** [_init_test_data]: the list stored in [self.test_data]. *)
Definition _init_test_data (test_block_size blocks_to_add : Z) : list Z :=
  let test_data_func idx := hash_of_index idx in
  let items_to_add := test_block_size * blocks_to_add in
  test_data_func <$> range_items (mkrange 0 items_to_add 1).

(** [__init__] *)
Definition __init__ (test_block_size blocks_to_add blocks_to_remove : Z)
  (prob_add prob_remove : float) : outcome t :=
  _ ← assert (0 <? test_block_size);
  _ ← assert ((0 <? blocks_to_remove) && (blocks_to_remove <? blocks_to_add));
  _ ← assert (float_le float_0_01 prob_add && float_le prob_add float_0_99);
  _ ← assert (float_le float_0_01 prob_remove && float_le prob_remove float_0_99);
  Ret (mk test_block_size blocks_to_add blocks_to_remove prob_add prob_remove
          (_init_test_data test_block_size blocks_to_add)).

Section Subject.
Context {S : Type} `{TrimmableList S}.

(** The variables of the loop of [randomized_populate]; [printed] holds the
    pairs (added, removed) of the progress lines printed so far. *)
Record loop : Type := mkloop {
  test_subject : S;
  added_count : Z;
  removed_count : Z;
  can_add : bool;
  can_remove : bool;
  progress_update_count : Z;
  printed : list (Z * Z)
}.

(** How [randomized_populate] stands after the draws it was given:
    returned, still looping with no draw of [random.random()] left, or
    looping for ever without asking for a draw. *)
Inductive populated : Type :=
| Finished (subject : S) (lines : list (Z * Z))
| OutOfDraws (subject : S) (added removed : Z)
| Spinning.

(** The body of [if can_add and (random_fn() < pa)], [r] being the draw. *)
Definition add_step (self : t) (r : float) (st : loop) : outcome (loop * bool) :=
  if float_lt r (prob_add self) then
    value ← getitem (test_data self) (added_count st);
    '(subject, _) ← proto_append (test_subject st) value;
    let added_count := added_count st + 1 in
    let items_to_add := test_block_size self * blocks_to_add self in
    Ret (mkloop subject added_count (removed_count st)
                (added_count <? items_to_add) (can_remove st)
                (progress_update_count st) (printed st), true)
  else Ret (st, false).

(** [can_remove and (removed_count < added_count)]: the second [if] asks
    for a draw. *)
Definition wants_remove (st : loop) : bool :=
  can_remove st && (removed_count st <? added_count st).

(** The body of the second [if], [r] being the draw. *)
Definition remove_step (self : t) (r : float) (st : loop) (has_changed : bool)
  : outcome (loop * bool) :=
  if float_lt r (prob_remove self) then
    let removed_count := removed_count st + 1 in
    subject ← proto_trim_before (test_subject st) removed_count;
    let items_to_remove := test_block_size self * blocks_to_remove self in
    Ret (mkloop subject (added_count st) removed_count
                (can_add st) (removed_count <? items_to_remove)
                (progress_update_count st) (printed st), true)
  else Ret (st, has_changed).

(** [if has_changed: ...]: the progress count and the line printed at every
    [test_block_size]-th change ([test_block_size] is positive: [__init__]
    asserts it). *)
Definition progress (self : t) (st : loop) (has_changed : bool) : loop :=
  if has_changed then
    let count := progress_update_count st + 1 in
    mkloop (test_subject st) (added_count st) (removed_count st)
           (can_add st) (can_remove st) count
           (if count mod test_block_size self =? 0
            then printed st ++ [(added_count st, removed_count st)]
            else printed st)
  else st.

(** The [while] loop; [draws] are the values [random.random()] returns, in
    the order asked for. *)
Fixpoint populate_loop (self : t) (draws : list float) (st : loop)
  : outcome populated :=
  if negb (can_add st || can_remove st) then
    Ret (Finished (test_subject st) (printed st))
  else
    match draws with
    | [] =>
        if can_add st || wants_remove st
        then Ret (OutOfDraws (test_subject st) (added_count st) (removed_count st))
        else Ret Spinning
    | r :: draws1 =>
        if can_add st then
          '(st, has_changed) ← add_step self r st;
          if wants_remove st then
            match draws1 with
            | [] => Ret (OutOfDraws (test_subject st) (added_count st) (removed_count st))
            | r2 :: draws2 =>
                '(st, has_changed) ← remove_step self r2 st has_changed;
                populate_loop self draws2 (progress self st has_changed)
            end
          else populate_loop self draws1 (progress self st has_changed)
        else if wants_remove st then
          '(st, has_changed) ← remove_step self r st false;
          populate_loop self draws1 (progress self st has_changed)
        else Ret Spinning
    end.

(** [randomized_populate] *)
Definition randomized_populate (self : t) (test_subject : S) (draws : list float)
  : outcome populated :=
  _ ← assert (proto_len test_subject =? 0);
  let _initial_indexrange := proto_indexrange test_subject in
  _ ← assert (r_start _initial_indexrange =? 0);
  _ ← assert (r_stop _initial_indexrange =? 0);
  let items_to_add := test_block_size self * blocks_to_add self in
  let items_to_remove := test_block_size self * blocks_to_remove self in
  let added_count := 0 in
  let removed_count := 0 in
  populate_loop self draws
    (mkloop test_subject added_count removed_count
            (added_count <? items_to_add) (removed_count <? items_to_remove) 0 []).

(** The body of the loop of [sequential_verify]. *)
Definition verify_at (self : t) (test_subject : S) (idx : Z) : outcome unit :=
  expected_value ← getitem (test_data self) idx;
  actual_value ← proto_getitem test_subject idx;
  assert (match actual_value with
          | Some value => value =? expected_value
          | None => false
          end).

(** [sequential_verify] *)
Definition sequential_verify (self : t) (test_subject : S) : outcome unit :=
  let expect_items_added := test_block_size self * blocks_to_add self in
  let expect_items_removed := test_block_size self * blocks_to_remove self in
  _ ← assert (proto_len test_subject =? expect_items_added);
  let _initial_indexrange := proto_indexrange test_subject in
  _ ← assert (r_start _initial_indexrange =? expect_items_removed);
  _ ← assert (r_stop _initial_indexrange =? expect_items_added);
  _ ← for_each (verify_at self test_subject)
        (range_items (mkrange expect_items_removed expect_items_added 1));
  Ret tt.

End Subject.
End Benchmark.
Arguments loop : clear implicits.
Arguments populated : clear implicits.
Arguments mk {float}.
Arguments test_block_size {float}.
Arguments blocks_to_add {float}.
Arguments blocks_to_remove {float}.
Arguments prob_add {float}.
Arguments prob_remove {float}.
Arguments test_data {float}.
Arguments __init__ {float}.
Arguments add_step {float} float_lt {S H}.
Arguments remove_step {float} float_lt {S H}.
Arguments progress {float S}.
Arguments populate_loop {float} float_lt {S H}.
Arguments randomized_populate {float} float_lt {S H}.
Arguments verify_at {float S H}.
Arguments sequential_verify {float S H}.
End Benchmark.

(** * Invariants and measures used in the statements *)

Section Vocabulary.
Context {T : Type}.
Abbreviation leaf := (list (option T)).
Abbreviation mid := (list (option leaf)).
Abbreviation root := (list (option mid)).

(** ** ChunkList *)

(** Every list of the tree, and every pooled buffer, has 128 slots. *)
Definition wf_slots {A} (inner : A -> Prop) (l : list (option A)) : Prop :=
  length l = 128%nat /\ Forall (fun c => match c with Some x => inner x | None => True end) l.
Definition wf_leaf (l : leaf) : Prop := length l = 128%nat.
Definition wf_mid (l : mid) : Prop := wf_slots wf_leaf l.
Definition wf_root (d : root) : Prop := wf_slots wf_mid d.
Definition wf (self : ChunkList.t T) : Prop :=
  wf_root (ChunkList._data self) /\
  Forall (fun b => length b = 128%nat) (ChunkList._pool self).

(** The three slot positions of an index. *)
Definition path (idx : Z) : nat * nat * nat :=
  let '(_, k1, k2, k3) := ChunkList._decompose idx in
  (Z.to_nat k1, Z.to_nat k2, Z.to_nat k3).

(** The chunk found in a slot, or a blank one. *)
Definition chunk_at {A} (l : list (option (list (option A)))) (k : nat)
  : list (option A) :=
  match l !! k with
  | Some (Some c) => c
  | _ => ChunkList._pool_getnew
  end.

(** What the tree holds along a path. *)
Definition peek (d : root) (p : nat * nat * nat) : option T :=
  let '(k1, k2, k3) := p in
  match chunk_at (chunk_at d k1) k2 !! k3 with
  | Some v => v
  | None => None
  end.

(** The tree after a store along a path. *)
Definition poke (d : root) (p : nat * nat * nat) (item : option T) : root :=
  let '(k1, k2, k3) := p in
  let l2 := chunk_at d k1 in
  let l3 := chunk_at l2 k2 in
  <[k1 := Some (<[k2 := Some (<[k3 := item]> l3)]> l2)]> d.

Definition in_path (p : nat * nat * nat) : Prop :=
  let '(k1, k2, k3) := p in (k1 < 128 /\ k2 < 128 /\ k3 < 128)%nat.

(** The number of indices the three levels can hold. *)
Definition capacity : Z := 128 * 128 * 128.

(** The index of a logged write is inside the capacity. *)
Definition in_capacity {V} (w : Z * V) : Prop := 0 <= w.1 < capacity.

(** ** ChunkList.enumerate *)

(** A bound of a step-1 selector as [enumerate] reads it: a missing
    bound is the window's own, a negative one counts back from [stop]. *)
Definition lower (self : ChunkList.t T) (a : option Z) : Z :=
  match a with
  | None => ChunkList._start self
  | Some a => if a <? 0 then a + ChunkList._stop self else a
  end.
Definition upper (self : ChunkList.t T) (b : option Z) : Z :=
  match b with
  | None => ChunkList._stop self
  | Some b => if b <? 0 then b + ChunkList._stop self else b
  end.

(** The indices from the two bounds that lie in the window, ascending. *)
Definition span (self : ChunkList.t T) (a b : option Z) : list Z :=
  let lo := Z.max (lower self a) (ChunkList._start self) in
  let hi := Z.min (upper self b) (ChunkList._stop self) in
  seqZ lo (hi - lo).

(** The selected indices that lie in the window, in the order selected. *)
Definition selected (self : ChunkList.t T) (l : list Z) : list Z :=
  filter (fun idx => ChunkList._start self <= idx < ChunkList._stop self) l.

(** The pairs are those of the indices [idxs], each with what [get] returns. *)
Definition yields (self : ChunkList.t T) (idxs : list Z)
  (r : outcome (list (Z * option T))) : Prop :=
  exists out, r = Ret out /\ out.*1 = idxs /\
              Forall (fun p => ChunkList.get self p.1 = Ret p.2) out.

(** ** TrimList *)

(** How many items [trim_before idx] removes. *)
Definition trim_count (self : TrimList.t T) (idx : Z) : nat :=
  Z.to_nat (Z.min (len (TrimList._data self))
                  (Z.max 0 (idx - TrimList._pop_count self))).

(** [all] holds every value appended so far; the deque holds those that
    were not removed. *)
Definition holds (all : list T) (self : TrimList.t T) : Prop :=
  0 <= TrimList._pop_count self <= len all /\
  TrimList._data self = drop (Z.to_nat (TrimList._pop_count self)) all.

(** ** ChunkListAdapter *)

(** Every [trim_before] of the sequence is asked for an index that is at
    most the number of items appended before it ([n] of them before the
    sequence starts), as the benchmark's [randomized_populate] does. *)
Fixpoint trims_within (n : Z) (cs : list (ChunkListAdapter.call T)) : Prop :=
  match cs with
  | [] => True
  | ChunkListAdapter.Append _ :: cs' => trims_within (n + 1) cs'
  | ChunkListAdapter.TrimBefore idx :: cs' => idx <= n /\ trims_within n cs'
  end.

(** The adapter removes nothing from its [ChunkList]; what stands for
    the removed items is the appended indices, [0] to [stop - 1], that lie
    below the trim point and read as [None] from then on. *)
Definition hidden_items (a : ChunkListAdapter.t T) : Z :=
  len (filter (fun i => i < ChunkListAdapter._trimmed a)
              (seqZ 0 (ChunkList._stop (ChunkListAdapter._impl a)))).

End Vocabulary.

(** ** Measures of the further properties *)

Section Measures.
Context {T : Type}.

(** How many writes of a sequence are [append]. *)
Fixpoint chunk_appends (cs : list (ChunkList.call T)) : Z :=
  match cs with
  | [] => 0
  | ChunkList.Append _ :: cs' => 1 + chunk_appends cs'
  | ChunkList.Put _ _ :: cs' => chunk_appends cs'
  end.

(** The indices that the appends of a sequence of writes returned, in call
    order, read from the log of the run. *)
Fixpoint append_indices (cs : list (ChunkList.call T)) (log : list (Z * option T))
  : list Z :=
  match cs, log with
  | ChunkList.Append _ :: cs', (idx, _) :: log' => idx :: append_indices cs' log'
  | ChunkList.Put _ _ :: cs', _ :: log' => append_indices cs' log'
  | _, _ => []
  end.

(** The values that a sequence of adapter calls appends, in call order. *)
Fixpoint adapter_appended (cs : list (ChunkListAdapter.call T)) : list T :=
  match cs with
  | [] => []
  | ChunkListAdapter.Append value :: cs' => value :: adapter_appended cs'
  | ChunkListAdapter.TrimBefore _ :: cs' => adapter_appended cs'
  end.

(** The variables of the loop of [randomized_populate] agree with each
    other and with the subject: [tracks subject added removed] says that the
    subject holds the first [added] test values, the first [removed] of them
    trimmed. *)
Definition loop_ok {S : Type} (tracks : S -> Z -> Z -> Prop)
  (items_to_add items_to_remove : Z) (st : Benchmark.loop S) : Prop :=
  tracks (Benchmark.test_subject st) (Benchmark.added_count st) (Benchmark.removed_count st) /\
  0 <= Benchmark.removed_count st <= Benchmark.added_count st /\
  Benchmark.added_count st <= items_to_add /\
  Benchmark.removed_count st <= items_to_remove /\
  Benchmark.can_add st = (Benchmark.added_count st <? items_to_add) /\
  Benchmark.can_remove st = (Benchmark.removed_count st <? items_to_remove).

(** Where [randomized_populate] can stand after its draws: returned, with
    everything added and trimmed, or waiting for a draw. *)
Definition populate_ok {S : Type} (tracks : S -> Z -> Z -> Prop)
  (items_to_add items_to_remove : Z) (r : outcome (Benchmark.populated S)) : Prop :=
  (exists subject lines,
     r = Ret (Benchmark.Finished subject lines) /\
     tracks subject items_to_add items_to_remove) \/
  (exists subject added removed,
     r = Ret (Benchmark.OutOfDraws subject added removed) /\
     tracks subject added removed /\
     0 <= removed <= added /\ added <= items_to_add /\ removed <= items_to_remove).

(** A [TrimList] that holds the first [added] of the test values, the first
    [removed] of them trimmed. *)
Definition trim_list_tracks (test_data : list Z) (subject : TrimList.t Z)
  (added removed : Z) : Prop :=
  subject = TrimList.mk (drop (Z.to_nat removed) (take (Z.to_nat added) test_data)) removed.

(** A [ChunkListAdapter] that holds the first [added] of the test values
    and has its trim point at [removed]. *)
Definition adapter_tracks (test_data : list Z) (subject : ChunkListAdapter.t Z)
  (added removed : Z) : Prop :=
  wf (ChunkListAdapter._impl subject) /\
  ChunkListAdapter._trimmed subject = removed /\
  ChunkList._start (ChunkListAdapter._impl subject) = 0 /\
  ChunkList._stop (ChunkListAdapter._impl subject) = added /\
  forall i value,
    0 <= i < added -> test_data !! Z.to_nat i = Some value ->
    peek (ChunkList._data (ChunkListAdapter._impl subject)) (path i) = Some value.

End Measures.

(** * Properties *)

(** Reduce a bind whose first computation has returned. *)
Ltac ret_step := cbn [mbind mret fmap outcome_bind outcome_ret outcome_fmap bind].

(** ** Subscripts and stores inside the bounds *)

Section PyFacts.
Context {A : Type}.
Implicit Types (l : list A) (i : Z).

Lemma position_nonneg n i : 0 <= i < n -> position n i = Some (Z.to_nat i).
Proof.
  intros [H0 Hn]. unfold position.
  apply Z.leb_le in H0. apply Z.ltb_lt in Hn. now rewrite H0, Hn.
Qed.

Lemma position_negative n i : - n <= i < 0 -> position n i = Some (Z.to_nat (n + i)).
Proof.
  intros [H0 Hn]. unfold position.
  replace (0 <=? i) with false by (symmetry; apply Z.leb_gt; lia).
  apply Z.leb_le in H0. apply Z.ltb_lt in Hn. now rewrite H0, Hn.
Qed.

Lemma position_outside n i : i < - n \/ n <= i -> 0 <= n -> position n i = None.
Proof.
  intros Hi Hn. unfold position.
  destruct (Z.leb_spec 0 i), (Z.ltb_spec i n), (Z.leb_spec (- n) i),
    (Z.ltb_spec i 0); simpl; try reflexivity; lia.
Qed.

Lemma getitem_inside l i :
  0 <= i < len l ->
  exists x, l !! Z.to_nat i = Some x /\ getitem l i = Ret x.
Proof.
  intros Hi. unfold getitem. rewrite position_nonneg by exact Hi.
  destruct (lookup_lt_is_Some_2 l (Z.to_nat i)) as [x Hx].
  { unfold len in Hi. lia. }
  exists x. now rewrite Hx.
Qed.

Lemma getitem_wraps l i :
  - len l <= i < 0 ->
  exists x, l !! Z.to_nat (len l + i) = Some x /\ getitem l i = Ret x.
Proof.
  intros Hi. unfold getitem. rewrite position_negative by exact Hi.
  destruct (lookup_lt_is_Some_2 l (Z.to_nat (len l + i))) as [x Hx].
  { unfold len in *. lia. }
  exists x. now rewrite Hx.
Qed.

Lemma getitem_outside l i : i < - len l \/ len l <= i -> getitem l i = Raise IndexError.
Proof.
  intros Hi. unfold getitem. rewrite position_outside; auto. unfold len. lia.
Qed.

Lemma setitem_inside l i x :
  0 <= i < len l -> setitem l i x = Ret (<[Z.to_nat i := x]> l).
Proof. intros Hi. unfold setitem. now rewrite position_nonneg. Qed.

End PyFacts.

(** ** The 7-bit index arithmetic *)

Section IndexMath.

Lemma mask_is_mod (x : Z) : Z.land x 127 = x mod 128.
Proof. change 127 with (Z.ones 7). rewrite Z.land_ones by lia. reflexivity. Qed.

Lemma shift_is_div (x : Z) : Z.shiftr x 7 = x / 128.
Proof. rewrite Z.shiftr_div_pow2 by lia. reflexivity. Qed.

Lemma decompose_eq (idx : Z) :
  ChunkList._decompose idx =
  (idx / 128 / 128 / 128, idx / 128 / 128 mod 128, idx / 128 mod 128, idx mod 128).
Proof.
  unfold ChunkList._decompose, ChunkList._BITS, ChunkList._MASK.
  cbv zeta. now rewrite !mask_is_mod, !shift_is_div.
Qed.

Lemma compose_decompose (idx : Z) :
  ChunkList._compose (ChunkList._decompose idx) = idx.
Proof.
  rewrite decompose_eq. unfold ChunkList._compose, ChunkList._CHUNKSIZE.
  Z.div_mod_to_equations. lia.
Qed.

Lemma decompose_compose (r k1 k2 k3 : Z) :
  0 <= k1 < 128 -> 0 <= k2 < 128 -> 0 <= k3 < 128 ->
  ChunkList._decompose (ChunkList._compose (r, k1, k2, k3)) = (r, k1, k2, k3).
Proof.
  intros H1 H2 H3. rewrite decompose_eq.
  unfold ChunkList._compose, ChunkList._CHUNKSIZE.
  repeat f_equal; Z.div_mod_to_equations; lia.
Qed.

End IndexMath.

(** C9. [_compose] undoes [_decompose] on every index [>= 0], and
    [_decompose] undoes [_compose] on every tuple whose remainder is [>= 0]
    and whose three keys are each in [0, 128). *)
Theorem C9_compose_inverts_decompose :
  (forall idx : Z, 0 <= idx ->
     ChunkList._compose (ChunkList._decompose idx) = idx) /\
  (forall remainder k1 k2 k3 : Z,
     0 <= remainder -> 0 <= k1 < 128 -> 0 <= k2 < 128 -> 0 <= k3 < 128 ->
     ChunkList._decompose (ChunkList._compose (remainder, k1, k2, k3))
     = (remainder, k1, k2, k3)).
Proof.
  split.
  - intros idx _. apply compose_decompose.
  - intros r k1 k2 k3 _. apply decompose_compose.
Qed.

Lemma C9_witness :
  ChunkList._compose (ChunkList._decompose 2097279) = 2097279 /\
  ChunkList._decompose (ChunkList._compose (5, 1, 2, 127)) = (5, 1, 2, 127).
Proof.
  split.
  - apply (proj1 C9_compose_inverts_decompose). lia.
  - apply (proj2 C9_compose_inverts_decompose); lia.
Defined.

(** ** ChunkList: the chunk tree *)

Section ChunkTree.
Context {T : Type}.
Abbreviation leaf := (list (option T)).
Abbreviation mid := (list (option leaf)).
Abbreviation root := (list (option mid)).
Implicit Types (d : root) (p q : nat * nat * nat) (item : option T).

Lemma blank_length {A} : length (@ChunkList._pool_getnew A) = 128%nat.
Proof. reflexivity. Qed.

Lemma blank_lookup {A} (k : nat) :
  (k < 128)%nat -> @ChunkList._pool_getnew A !! k = Some None.
Proof. intros Hk. unfold ChunkList._pool_getnew. now apply lookup_replicate_2. Qed.

Lemma wf_slots_blank {A} (inner : A -> Prop) : wf_slots inner ChunkList._pool_getnew.
Proof.
  split; [reflexivity|]. unfold ChunkList._pool_getnew.
  apply Forall_replicate. exact I.
Qed.

Lemma wf_slots_chunk {A} (inner : list (option A) -> Prop) l k :
  wf_slots inner l -> inner ChunkList._pool_getnew -> inner (chunk_at l k).
Proof.
  intros [_ Hall] Hblank. unfold chunk_at.
  destruct (l !! k) as [[c|]|] eqn:Hk; try exact Hblank.
  exact (proj1 (Forall_lookup _ _) Hall k _ Hk).
Qed.

Lemma wf_slots_insert {A} (inner : A -> Prop) l k x :
  wf_slots inner l -> inner x -> wf_slots inner (<[k := Some x]> l).
Proof.
  intros [Hlen Hall] Hx. split.
  - now rewrite length_insert.
  - apply Forall_insert; assumption.
Qed.

Lemma wf_slots_lt {A} (inner : A -> Prop) l k :
  wf_slots inner l -> (k < 128)%nat -> (k < length l)%nat.
Proof. intros [E _] Hk. rewrite E. exact Hk. Qed.

Lemma wf_mid_chunk (d : root) k : wf_root d -> wf_mid (chunk_at d k).
Proof. intros Hd. apply (wf_slots_chunk wf_mid); [exact Hd | apply wf_slots_blank]. Qed.

Lemma wf_leaf_chunk (l : mid) k : wf_mid l -> wf_leaf (chunk_at l k).
Proof. intros Hl. apply (wf_slots_chunk wf_leaf); [exact Hl | reflexivity]. Qed.

Lemma wf_root_poke d p item : wf_root d -> wf_root (poke d p item).
Proof.
  destruct p as [[k1 k2] k3]. intros Hd. unfold poke.
  apply wf_slots_insert; [exact Hd|].
  apply wf_slots_insert; [now apply wf_mid_chunk|].
  unfold wf_leaf. rewrite length_insert.
  apply wf_leaf_chunk. now apply wf_mid_chunk.
Qed.

Lemma chunk_at_insert_same {A} (l : list (option (list (option A)))) k c :
  (k < length l)%nat -> chunk_at (<[k := Some c]> l) k = c.
Proof. intros Hk. unfold chunk_at. now rewrite list_lookup_insert_eq. Qed.

Lemma chunk_at_insert_other {A} (l : list (option (list (option A)))) k k' c :
  k <> k' -> chunk_at (<[k := Some c]> l) k' = chunk_at l k'.
Proof. intros Hk. unfold chunk_at. now rewrite list_lookup_insert_ne. Qed.

Lemma peek_poke_same d p item :
  wf_root d -> in_path p -> peek (poke d p item) p = item.
Proof.
  destruct p as [[k1 k2] k3]. intros Hd (H1 & H2 & H3). unfold peek, poke.
  cbv zeta.
  pose proof (wf_mid_chunk d k1 Hd) as Hm.
  pose proof (wf_leaf_chunk _ k2 Hm) as Hl.
  rewrite chunk_at_insert_same by (exact (wf_slots_lt _ _ _ Hd H1)).
  rewrite chunk_at_insert_same by (exact (wf_slots_lt _ _ _ Hm H2)).
  rewrite list_lookup_insert_eq by (rewrite Hl; exact H3).
  reflexivity.
Qed.

Lemma peek_poke_other d p q item :
  wf_root d -> in_path p -> p <> q -> peek (poke d p item) q = peek d q.
Proof.
  destruct p as [[k1 k2] k3], q as [[j1 j2] j3].
  intros Hd (H1 & H2 & H3) Hne. unfold peek, poke. cbv zeta.
  pose proof (wf_mid_chunk d k1 Hd) as Hm.
  destruct (decide (k1 = j1)) as [<-|N1].
  - rewrite chunk_at_insert_same by (exact (wf_slots_lt _ _ _ Hd H1)).
    destruct (decide (k2 = j2)) as [<-|N2].
    + rewrite chunk_at_insert_same by (exact (wf_slots_lt _ _ _ Hm H2)).
      rewrite list_lookup_insert_ne by congruence. reflexivity.
    + now rewrite chunk_at_insert_other.
  - now rewrite chunk_at_insert_other.
Qed.

Lemma path_in_path idx : in_path (path idx).
Proof.
  unfold path. rewrite decompose_eq. unfold in_path.
  repeat split; Z.div_mod_to_equations; lia.
Qed.

(** Inside the capacity two indices share no path. *)
Lemma path_injective i j :
  0 <= i < 128 * 128 * 128 -> 0 <= j < 128 * 128 * 128 ->
  path i = path j -> i = j.
Proof.
  unfold path. rewrite !decompose_eq. intros Hi Hj Heq.
  injection Heq as E1 E2 E3.
  apply Z2Nat.inj in E1, E2, E3; Z.div_mod_to_equations; lia.
Qed.

(** An index and the one its low 21 bits spell share their path. *)
Lemma path_low_bits idx : path idx = path (idx mod (128 * 128 * 128)).
Proof.
  unfold path. rewrite !decompose_eq.
  f_equal; [f_equal|]; apply (f_equal Z.to_nat); Z.div_mod_to_equations; lia.
Qed.

End ChunkTree.

(** ** ChunkList: [put], [get] and [append] on a well-formed list *)

Section ChunkListOps.
Context {T : Type}.
Implicit Types (self : ChunkList.t T) (idx : Z) (item : option T).

Lemma reuse_blank {A} (obj : list (option Empty_set)) :
  length obj = 128%nat -> @ChunkList.reuse A obj = ChunkList._pool_getnew.
Proof.
  intros Hlen. unfold ChunkList.reuse, ChunkList._pool_getnew.
  change (Z.to_nat ChunkList._CHUNKSIZE) with 128%nat. rewrite <- Hlen.
  clear Hlen. induction obj as [|x obj IH]; [reflexivity|].
  cbn. f_equal. exact IH.
Qed.

Lemma wf_init : wf (@ChunkList.__init__ T).
Proof. split; [apply wf_slots_blank | constructor]. Qed.

(** [_pool_get] hands out a blank buffer and touches only the pool. *)
Lemma pool_get_blank {A} self :
  wf self ->
  exists self',
    @ChunkList._pool_get T A self = Ret (ChunkList._pool_getnew, self') /\
    ChunkList._data self' = ChunkList._data self /\
    ChunkList._start self' = ChunkList._start self /\
    ChunkList._stop self' = ChunkList._stop self /\
    wf self'.
Proof.
  intros [Hd Hp]. unfold ChunkList._pool_get.
  destruct (0 <? len (ChunkList._pool self)) eqn:Hlen.
  - destruct (reverse (ChunkList._pool self)) as [|obj rest] eqn:Hrev.
    + apply (f_equal length) in Hrev. rewrite length_reverse in Hrev.
      apply Z.ltb_lt in Hlen. unfold len in Hlen. simpl in Hrev. lia.
    + assert (Hall : Forall (fun b => length b = 128%nat) (obj :: rest)).
      { rewrite <- Hrev. now apply Forall_reverse. }
      inversion Hall as [|? ? Hobj Hrest]; subst.
      unfold len. rewrite Hobj. cbn.
      rewrite reuse_blank by exact Hobj.
      eexists. split; [reflexivity|]. do 3 (split; [reflexivity|]).
      split; [exact Hd|]. cbn. rewrite Forall_reverse. exact Hrest.
  - exists self. do 4 (split; [reflexivity|]). split; assumption.
Qed.

Lemma wf_with_data self d : wf self -> wf_root d -> wf (ChunkList.with_data self d).
Proof. intros [_ Hp] Hd. split; assumption. Qed.

(** Reading a slot of an upper level: the chunk it holds, or a buffer from
    the pool when it holds [None]. *)
Lemma fetch_chunk {A} self (l : list (option (list (option A)))) k c :
  wf self -> l !! k = Some c ->
  exists self',
    match c with
    | Some x => Ret (x, self)
    | None => ChunkList._pool_get self
    end = Ret (chunk_at l k, self') /\
    ChunkList._data self' = ChunkList._data self /\
    ChunkList._start self' = ChunkList._start self /\
    ChunkList._stop self' = ChunkList._stop self /\
    wf self'.
Proof.
  intros Hwf Hk. unfold chunk_at. rewrite Hk. destruct c as [x|].
  - exists self. do 4 (split; [reflexivity|]). exact Hwf.
  - now apply pool_get_blank.
Qed.

(** [put] never raises on a well-formed list: it stores the item along
    the path of the index and leaves the window alone. *)
Lemma put_stores self idx item :
  wf self ->
  exists self',
    ChunkList.put self idx item = Ret self' /\
    ChunkList._data self' = poke (ChunkList._data self) (path idx) item /\
    ChunkList._start self' = ChunkList._start self /\
    ChunkList._stop self' = ChunkList._stop self /\
    wf self'.
Proof.
  intros Hwf. pose proof (path_in_path idx) as Hpath.
  unfold ChunkList.put, path in *.
  destruct (ChunkList._decompose idx) as [[[r k1] k2] k3] eqn:Hdec.
  rewrite decompose_eq in Hdec. injection Hdec as _ E1 E2 E3.
  assert (R1 : 0 <= k1 < 128) by (subst k1; apply Z.mod_pos_bound; lia).
  assert (R2 : 0 <= k2 < 128) by (subst k2; apply Z.mod_pos_bound; lia).
  assert (R3 : 0 <= k3 < 128) by (subst k3; apply Z.mod_pos_bound; lia).
  clear E1 E2 E3. destruct Hpath as (P1 & P2 & P3).
  pose proof (proj1 Hwf) as Hd.
  destruct (getitem_inside (ChunkList._data self) k1) as (c1 & Hc1 & G1).
  { unfold len. rewrite (proj1 Hd). lia. }
  rewrite G1. ret_step.
  destruct (fetch_chunk self _ _ _ Hwf Hc1) as (self1 & F1 & D1 & S1 & St1 & Hwf1).
  rewrite F1. ret_step.
  pose proof (wf_mid_chunk _ (Z.to_nat k1) Hd) as Hm.
  destruct (getitem_inside (chunk_at (ChunkList._data self) (Z.to_nat k1)) k2)
    as (c2 & Hc2 & G2).
  { unfold len. rewrite (proj1 Hm). lia. }
  rewrite G2. ret_step.
  destruct (fetch_chunk self1 _ _ _ Hwf1 Hc2) as (self2 & F2 & D2 & S2 & St2 & Hwf2).
  rewrite F2. ret_step.
  pose proof (wf_leaf_chunk _ (Z.to_nat k2) Hm) as Hl.
  rewrite setitem_inside by (unfold len; rewrite Hl; lia). ret_step.
  rewrite setitem_inside by (unfold len; rewrite (proj1 Hm); lia). ret_step.
  rewrite setitem_inside by (unfold len; rewrite D2, D1, (proj1 Hd); lia). ret_step.
  eexists. split; [reflexivity|].
  split; [cbn; rewrite D2, D1; reflexivity|].
  split; [cbn; congruence|]. split; [cbn; congruence|].
  apply wf_with_data; [exact Hwf2|].
  rewrite D2, D1. apply (wf_root_poke _ (Z.to_nat k1, Z.to_nat k2, Z.to_nat k3)).
  exact Hd.
Qed.

(** [get] never raises on a well-formed list: inside the window it reads
    what the tree holds along the path of the index. *)
Lemma get_reads self idx :
  wf self ->
  ChunkList.get self idx =
  Ret (if (ChunkList._start self <=? idx) && (idx <? ChunkList._stop self)
       then peek (ChunkList._data self) (path idx) else None).
Proof.
  intros Hwf. unfold ChunkList.get.
  destruct ((ChunkList._start self <=? idx) && (idx <? ChunkList._stop self));
    [|reflexivity].
  cbn [negb]. pose proof (path_in_path idx) as Hpath. unfold path in *.
  destruct (ChunkList._decompose idx) as [[[r k1] k2] k3] eqn:Hdec.
  rewrite decompose_eq in Hdec. injection Hdec as _ E1 E2 E3.
  assert (R1 : 0 <= k1 < 128) by (subst k1; apply Z.mod_pos_bound; lia).
  assert (R2 : 0 <= k2 < 128) by (subst k2; apply Z.mod_pos_bound; lia).
  assert (R3 : 0 <= k3 < 128) by (subst k3; apply Z.mod_pos_bound; lia).
  clear E1 E2 E3. destruct Hpath as (P1 & P2 & P3).
  pose proof (proj1 Hwf) as Hd. unfold peek, chunk_at.
  destruct (getitem_inside (ChunkList._data self) k1) as (c1 & Hc1 & G1).
  { unfold len. rewrite (proj1 Hd). lia. }
  rewrite G1, Hc1. ret_step.
  destruct c1 as [l2|]; [|now rewrite blank_lookup, blank_lookup].
  assert (Hm : wf_mid l2).
  { exact (proj1 (Forall_lookup _ _) (proj2 Hd) _ _ Hc1). }
  destruct (getitem_inside l2 k2) as (c2 & Hc2 & G2).
  { unfold len. rewrite (proj1 Hm). lia. }
  rewrite G2, Hc2. ret_step.
  destruct c2 as [l3|]; [|now rewrite blank_lookup].
  assert (Hl : wf_leaf l3).
  { exact (proj1 (Forall_lookup _ _) (proj2 Hm) _ _ Hc2). }
  destruct (getitem_inside l3 k3) as (v & Hv & G3).
  { unfold len. rewrite Hl. lia. }
  now rewrite G3, Hv.
Qed.

End ChunkListOps.

(** ** ChunkList: sequences of writes *)

Section ChunkListRuns.
Context {T : Type}.
Implicit Types (self : ChunkList.t T) (idx : Z) (item : option T).

Lemma append_stores self (x : T) :
  wf self ->
  exists self',
    ChunkList.append self x = Ret (self', ChunkList._stop self) /\
    ChunkList._data self' =
      poke (ChunkList._data self) (path (ChunkList._stop self)) (Some x) /\
    ChunkList._start self' = ChunkList._start self /\
    ChunkList._stop self' = ChunkList._stop self + 1 /\
    wf self'.
Proof.
  intros Hwf. unfold ChunkList.append.
  destruct (put_stores (ChunkList.with_stop self (ChunkList._stop self + 1))
              (ChunkList._stop self) (Some x)) as (self' & P & D & S & St & W).
  { exact Hwf. }
  rewrite P. ret_step. exists self'. repeat split; try assumption; apply W.
Qed.

(** One write never raises on a well-formed list, and stores the logged
    item along the path of the logged index. *)
Lemma step_stores self (c : ChunkList.call T) :
  wf self ->
  exists self' w,
    ChunkList.step self c = Ret (self', w) /\
    ChunkList._data self' = poke (ChunkList._data self) (path w.1) w.2 /\
    ChunkList._start self' = ChunkList._start self /\
    ChunkList._stop self <= ChunkList._stop self' /\
    wf self'.
Proof.
  intros Hwf. destruct c as [x|idx item]; unfold ChunkList.step.
  - destruct (append_stores self x Hwf) as (self' & A & D & S & St & W).
    rewrite A. ret_step. exists self', (ChunkList._stop self, Some x).
    repeat split; try assumption; try apply W. lia.
  - destruct (put_stores self idx item Hwf) as (self' & P & D & S & St & W).
    rewrite P. ret_step. exists self', (idx, item).
    repeat split; try assumption; try apply W. lia.
Qed.

Lemma last_write_logged {V} (log : list (Z * V)) i v :
  last_write log i = Some v -> exists w, w ∈ log /\ w.1 = i.
Proof.
  induction log as [|[j u] log IH]; cbn; [discriminate|].
  destruct (last_write log i) as [w|] eqn:E.
  - intros Hv. destruct (IH Hv) as (w' & Hin & <-).
    exists w'. split; [now right | reflexivity].
  - destruct (Z.eqb_spec i j) as [->|]; [|discriminate].
    intros _. exists (j, u). split; [now left | reflexivity].
Qed.

(** A run of writes never raises; afterwards each slot inside the capacity
    holds the last item the log has for it, or what it held before. *)
Lemma run_stores (cs : list (ChunkList.call T)) :
  forall self, wf self ->
  exists self' log,
    ChunkList.run self cs = Ret (self', log) /\
    wf self' /\
    ChunkList._start self' = ChunkList._start self /\
    ChunkList._stop self <= ChunkList._stop self' /\
    (Forall in_capacity log ->
     forall i, 0 <= i < capacity ->
       peek (ChunkList._data self') (path i) =
       match last_write log i with
       | Some v => v
       | None => peek (ChunkList._data self) (path i)
       end).
Proof.
  induction cs as [|c cs IH]; intros self Hwf.
  - exists self, []. split; [reflexivity|]. split; [exact Hwf|].
    split; [reflexivity|]. split; [lia|]. intros _ i _. reflexivity.
  - destruct (step_stores self c Hwf) as (self1 & [j v] & Hstep & D1 & S1 & St1 & W1).
    destruct (IH self1 W1) as (self' & ws & Hrun & W' & S' & St' & Hpeek).
    cbn [ChunkList.run]. rewrite Hstep. ret_step. rewrite Hrun. ret_step.
    exists self', ((j, v) :: ws). split; [reflexivity|].
    split; [exact W'|]. split; [congruence|]. split; [lia|].
    intros Hcap i Hi. inversion Hcap as [|? ? Hj Hws]; subst.
    rewrite (Hpeek Hws i Hi). cbn [last_write].
    destruct (last_write ws i); [reflexivity|].
    rewrite D1. cbn [fst snd]. destruct (Z.eqb_spec i j) as [->|Hne].
    + apply peek_poke_same; [apply Hwf | apply path_in_path].
    + apply peek_poke_other; [apply Hwf | apply path_in_path |].
      intros Heq. apply Hne. symmetry. now apply path_injective.
Qed.

(** Read after write on [ChunkList]. *)
Lemma chunk_list_read_after_write (cs : list (ChunkList.call T)) :
  exists self log,
    ChunkList.run ChunkList.__init__ cs = Ret (self, log) /\
    (Forall in_capacity log ->
     forall i item,
       ChunkList._start self <= i < ChunkList._stop self ->
       last_write log i = Some item ->
       ChunkList.get self i = Ret item).
Proof.
  destruct (run_stores cs _ wf_init) as (self & log & Hrun & W & S & _ & Hpeek).
  exists self, log. split; [exact Hrun|].
  intros Hcap i item Hwin Hlast. rewrite get_reads by exact W.
  destruct (last_write_logged _ _ _ Hlast) as (w & Hin & <-).
  assert (Hi : 0 <= w.1 < capacity).
  { exact (proj1 (Forall_forall _ _) Hcap w Hin). }
  replace ((ChunkList._start self <=? w.1) && (w.1 <? ChunkList._stop self))
    with true by (symmetry; apply andb_true_intro; split;
                  [apply Z.leb_le | apply Z.ltb_lt]; lia).
  rewrite (Hpeek Hcap _ Hi), Hlast. reflexivity.
Qed.

End ChunkListRuns.

(** ** TrimList: single calls *)

Section TrimListOps.
Context {T : Type}.
Implicit Types (self : TrimList.t T) (d : list T) (idx : Z).

Lemma trim_loop_pops (n : nat) :
  forall d acc, (n <= length d)%nat ->
    TrimList.trim_loop n d acc = Ret (drop n d, acc ++ take n d).
Proof.
  induction n as [|n IH]; intros d acc Hn.
  - cbn. now rewrite drop_0, app_nil_r.
  - destruct d as [|x d]; [cbn in Hn; lia|].
    cbn [TrimList.trim_loop popleft]. ret_step.
    rewrite IH by (cbn in Hn; lia). cbn. now rewrite <- app_assoc.
Qed.

Lemma trim_before_pops self idx :
  TrimList.trim_before self idx =
  Ret (TrimList.mk (drop (trim_count self idx) (TrimList._data self))
                   (TrimList._pop_count self + Z.of_nat (trim_count self idx)),
       take (trim_count self idx) (TrimList._data self)).
Proof.
  unfold TrimList.trim_before, trim_count.
  set (L := len (TrimList._data self)). set (pc := TrimList._pop_count self).
  assert (HL : 0 <= L) by (unfold L, len; lia).
  assert (E : Z.max 0 (L - Z.max 0 (L + pc - idx)) = Z.min L (Z.max 0 (idx - pc)))
    by lia.
  rewrite E. rewrite trim_loop_pops by (unfold L, len in *; lia).
  ret_step. cbn [app]. repeat f_equal. lia.
Qed.

Lemma pop_left_pops self :
  TrimList.pop_left self =
  Ret (match TrimList._data self with
       | [] => (self, None)
       | x :: d => (TrimList.mk d (TrimList._pop_count self + 1), Some x)
       end).
Proof.
  unfold TrimList.pop_left. destruct (TrimList._data self) as [|x d]; reflexivity.
Qed.

(** An integer subscript below [start] but not more than the length below
    it is taken from the end of the deque: the read returns what the read
    one length further up returns. *)
Lemma read_below_start self idx :
  TrimList._pop_count self - len (TrimList._data self) <= idx < TrimList._pop_count self ->
  exists v : T,
    TrimList.__getitem__ self (TrimList.SubInt idx) = Ret (inl v) /\
    TrimList.__getitem__ self (TrimList.SubInt (idx + len (TrimList._data self)))
      = Ret (inl v) /\
    TrimList._data self
      !! Z.to_nat (idx + len (TrimList._data self) - TrimList._pop_count self) = Some v.
Proof.
  intros Hidx. cbn [TrimList.__getitem__].
  set (pc := TrimList._pop_count self) in *.
  set (d := TrimList._data self) in *.
  destruct (getitem_wraps d (idx - pc)) as (v & Hv & Hget); [lia|].
  destruct (getitem_inside d (idx + len d - pc)) as (v' & Hv' & Hget'); [lia|].
  replace (Z.to_nat (len d + (idx - pc)))
    with (Z.to_nat (idx + len d - pc)) in Hv by lia.
  assert (v' = v) by congruence. subst v'.
  exists v. rewrite Hget, Hget'. ret_step. repeat split. exact Hv.
Qed.

End TrimListOps.

(** ** TrimList: sequences of calls *)

Section TrimListRuns.
Context {T : Type}.
Implicit Types (self : TrimList.t T) (all : list T).

Lemma holds_len all self :
  holds all self -> TrimList._pop_count self + len (TrimList._data self) = len all.
Proof. intros [Hpc ->]. unfold len in *. rewrite length_drop. lia. Qed.

Lemma holds_init : holds [] (@TrimList.__init__ T).
Proof. split; [unfold len; cbn; lia | reflexivity]. Qed.

(** A run of calls never raises. The appends return consecutive indices,
    the pop count grows by the number of items handed back, and the deque
    keeps the values that were not removed. *)
Lemma trim_list_run (cs : list (TrimList.call T)) :
  forall self all, holds all self ->
  exists self' rs,
    TrimList.run self cs = Ret (self', rs) /\
    holds (all ++ (TrimList.appended cs rs).*2) self' /\
    (TrimList.appended cs rs).*1 =
      seqZ (len all) (len (TrimList.appended cs rs)) /\
    len (TrimList.appended cs rs) = TrimList.appends cs /\
    TrimList._pop_count self' = TrimList._pop_count self + TrimList.removed cs rs.
Proof.
  induction cs as [|c cs IH]; intros self all Hall.
  - exists self, []. cbn. rewrite app_nil_r. repeat split; try apply Hall. lia.
  - pose proof (holds_len _ _ Hall) as Hlen. destruct Hall as [Hpc Hd].
    destruct c as [v|idx|]; cbn [TrimList.run TrimList.step].
    + (* append *)
      unfold TrimList.append. ret_step.
      destruct (IH (TrimList.mk (TrimList._data self ++ [v]) (TrimList._pop_count self))
                   (all ++ [v])) as (self' & rs & Hrun & Hall' & Hidx & Happ & Hrem).
      { split; cbn [TrimList._pop_count TrimList._data].
        - unfold len in *. rewrite length_app. cbn. lia.
        - rewrite Hd, drop_app_le by (unfold len in *; lia). reflexivity. }
      rewrite Hrun. ret_step. eexists _, _. split; [reflexivity|].
      cbn [TrimList.appended TrimList.removed TrimList.appends fmap list_fmap fst snd].
      rewrite <- app_assoc in Hall'. split; [exact Hall'|].
      split; [|split].
      * unfold len in *. cbn [length]. rewrite Nat2Z.inj_succ, <- Z.add_1_r.
        rewrite seqZ_cons by lia. f_equal; [lia|].
        rewrite Hidx. rewrite length_app. cbn [length]. f_equal; lia.
      * unfold len in *. cbn [length]. lia.
      * exact Hrem.
    + (* trim_before *)
      rewrite trim_before_pops. ret_step. set (n := trim_count self idx).
      assert (Hn : Z.of_nat n <= len (TrimList._data self)).
      { unfold n, trim_count. lia. }
      destruct (IH (TrimList.mk (drop n (TrimList._data self))
                                (TrimList._pop_count self + Z.of_nat n)) all)
        as (self' & rs & Hrun & Hall' & Hidx & Happ & Hrem).
      { split; cbn [TrimList._pop_count TrimList._data]; [lia|].
        rewrite Hd, drop_drop. f_equal. lia. }
      rewrite Hrun. ret_step. eexists _, _. split; [reflexivity|].
      cbn [TrimList.appended TrimList.removed TrimList.appends].
      repeat split; try assumption; try apply Hall'.
      rewrite Hrem. cbn [TrimList._pop_count]. unfold len in *.
      rewrite length_take. lia.
    + (* pop_left *)
      rewrite pop_left_pops. ret_step.
      destruct (TrimList._data self) as [|x d] eqn:Hdata.
      * destruct (IH self all) as (self' & rs & Hrun & Hall' & Hidx & Happ & Hrem).
        { split; [exact Hpc | congruence]. }
        ret_step. rewrite Hrun. ret_step. eexists _, _. split; [reflexivity|].
        cbn [TrimList.appended TrimList.removed TrimList.appends].
        repeat split; try assumption; apply Hall'.
      * destruct (IH (TrimList.mk d (TrimList._pop_count self + 1)) all)
          as (self' & rs & Hrun & Hall' & Hidx & Happ & Hrem).
        { unfold len in *. cbn [length] in Hlen.
          split; cbn [TrimList._pop_count TrimList._data]; [unfold len; lia|].
          replace (Z.to_nat (TrimList._pop_count self + 1))
            with (Z.to_nat (TrimList._pop_count self) + 1)%nat by lia.
          rewrite <- drop_drop, <- Hd. reflexivity. }
        ret_step. rewrite Hrun. ret_step. eexists _, _. split; [reflexivity|].
        cbn [TrimList.appended TrimList.removed TrimList.appends].
        repeat split; try assumption; try apply Hall'.
        rewrite Hrem. cbn [TrimList._pop_count]. lia.
Qed.

End TrimListRuns.

(** ** TrimList: the claims about single calls *)

(** C7. [TrimList.trim_before idx] pops exactly
    [min (length, max (0, idx - start))] leading items from the front, in
    order, returns them in removal order and adds that number to the pop
    count. With [idx <= start] it removes nothing, returns the empty list
    and leaves the list as it was; so does a second [trim_before j] after a
    [trim_before k] with [j <= k]. *)
Theorem C7_trim_before_pops_leading_items :
  forall (T : Type) (self : TrimList.t T) (idx : Z),
    let start := r_start (TrimList.indexrange self) in
    let n := Z.to_nat (Z.min (len (TrimList._data self)) (Z.max 0 (idx - start))) in
    TrimList.trim_before self idx =
      Ret (TrimList.mk (drop n (TrimList._data self))
                       (TrimList._pop_count self + Z.of_nat n),
           take n (TrimList._data self)) /\
    (idx <= start -> TrimList.trim_before self idx = Ret (self, [])) /\
    (forall (k : Z) (self1 : TrimList.t T) (removed1 : list T),
       idx <= k ->
       TrimList.trim_before self k = Ret (self1, removed1) ->
       TrimList.trim_before self1 idx = Ret (self1, [])).
Proof.
  intros T self idx start n.
  assert (Hnone : forall (s : TrimList.t T) (j : Z),
             trim_count s j = 0%nat -> TrimList.trim_before s j = Ret (s, [])).
  { intros s j E. rewrite trim_before_pops, E. destruct s as [d pc]. cbn.
    rewrite drop_0, Z.add_0_r. reflexivity. }
  split; [apply trim_before_pops|]. split.
  - intros Hle. apply Hnone. unfold trim_count. subst start. cbn in Hle. lia.
  - intros k self1 removed1 Hle Hk. rewrite trim_before_pops in Hk.
    injection Hk as <- _. apply Hnone. unfold trim_count.
    cbn [TrimList._data TrimList._pop_count].
    unfold len. rewrite length_drop. unfold trim_count, len. lia.
Qed.

Lemma C7_witness :
  TrimList.trim_before (TrimList.mk [10; 20; 30] 5) 3
  = Ret (TrimList.mk [10; 20; 30] 5, []).
Proof.
  apply (proj1 (proj2 (C7_trim_before_pops_leading_items Z
                         (TrimList.mk [10; 20; 30] 5) 3))).
  simpl. lia.
Defined.

(** C10. On a [TrimList] of length [L >= 1], reading an integer index
    with [start - L <= index < start] neither raises nor reports absence:
    the deque is subscripted from its end and hands back the live item of
    global index [index + L], which lies in the window. Among the reads
    below [start], those with [index < start - L] raise [IndexError]. *)
Theorem C10_read_below_start_wraps_around :
  forall (T : Type) (self : TrimList.t T) (index : Z),
    let start := r_start (TrimList.indexrange self) in
    let stop := r_stop (TrimList.indexrange self) in
    let L := len (TrimList._data self) in
    1 <= L -> index < start ->
    (start - L <= index ->
       exists v : T,
         TrimList.__getitem__ self (TrimList.SubInt index) = Ret (inl v) /\
         TrimList.__getitem__ self (TrimList.SubInt (index + L)) = Ret (inl v) /\
         TrimList._data self !! Z.to_nat (index + L - start) = Some v /\
         start <= index + L < stop) /\
    (index < start - L ->
       TrimList.__getitem__ self (TrimList.SubInt index) = Raise IndexError).
Proof.
  intros T self index start stop L HL Hlt. subst start stop L.
  cbn [TrimList.indexrange r_start r_stop] in *. split.
  - intros Hge.
    destruct (read_below_start self index) as (v & Hget & Hget' & Hv); [lia|].
    exists v. repeat split; try assumption; lia.
  - intros Hbelow. cbn [TrimList.__getitem__].
    rewrite getitem_outside; [reflexivity | lia].
Qed.

Lemma C10_witness :
  (exists v : Z,
     TrimList.__getitem__ (TrimList.mk [10; 20; 30] 5) (TrimList.SubInt 4) = Ret (inl v) /\
     TrimList.__getitem__ (TrimList.mk [10; 20; 30] 5) (TrimList.SubInt (4 + 3)) = Ret (inl v) /\
     [10; 20; 30] !! Z.to_nat (4 + 3 - 5) = Some v /\
     5 <= 4 + 3 < 5 + 3) /\
  TrimList.__getitem__ (TrimList.mk [10; 20; 30] 5) (TrimList.SubInt 1) = Raise IndexError.
Proof.
  split.
  - apply (proj1 (C10_read_below_start_wraps_around Z
                    (TrimList.mk [10; 20; 30] 5) 4 ltac:(unfold len; simpl; lia) ltac:(simpl; lia))).
    unfold len. simpl. lia.
  - apply (proj2 (C10_read_below_start_wraps_around Z
                    (TrimList.mk [10; 20; 30] 5) 1 ltac:(unfold len; simpl; lia) ltac:(simpl; lia))).
    unfold len. simpl. lia.
Defined.

(** ** Reads outside the window *)

(** C1, as stated, fails on [TrimList]: after one [append] the window is
    [0, 1), yet reading index 1 raises [IndexError] and reading index -1
    returns the item stored at index 0. *)
Lemma C1_trim_list_read_outside_window :
  exists (s : TrimList.t (option Z)) rs,
    TrimList.run TrimList.__init__ [TrimList.Append (Some 7)] = Ret (s, rs) /\
    TrimList.indexrange s = mkrange 0 1 1 /\
    TrimList.__getitem__ s (TrimList.SubInt 1) = Raise IndexError /\
    TrimList.__getitem__ s (TrimList.SubInt (-1)) = Ret (inl (Some 7)).
Proof. eexists _, _. repeat split. Qed.

(** C1, amended. [ChunkList.get] returns [None], and never raises, for
    every index outside [start, stop), in every state. [TrimList.__getitem__]
    makes no window check: an integer index at or above [stop], or below
    [start - length], raises [IndexError], and one in
    [start - length, start) returns the item of the window that the index
    one length further up returns. *)
Theorem C1_read_outside_window :
  forall (T : Type) (cl : ChunkList.t T) (tl : TrimList.t T) (idx : Z),
    (~ (r_start (ChunkList.keyrange cl) <= idx < r_stop (ChunkList.keyrange cl)) ->
       ChunkList.get cl idx = Ret None) /\
    (r_stop (TrimList.indexrange tl) <= idx \/
     idx < r_start (TrimList.indexrange tl) - len (TrimList._data tl) ->
       TrimList.__getitem__ tl (TrimList.SubInt idx) = Raise IndexError) /\
    (r_start (TrimList.indexrange tl) - len (TrimList._data tl) <= idx
       < r_start (TrimList.indexrange tl) ->
       exists v : T,
         TrimList.__getitem__ tl (TrimList.SubInt idx) = Ret (inl v) /\
         TrimList.__getitem__ tl (TrimList.SubInt (idx + len (TrimList._data tl)))
           = Ret (inl v)).
Proof.
  intros T cl tl idx. split; [|split].
  - cbn. intros Hout. unfold ChunkList.get.
    destruct (Z.leb_spec (ChunkList._start cl) idx), (Z.ltb_spec idx (ChunkList._stop cl));
      try reflexivity.
    exfalso. apply Hout. lia.
  - cbn. intros Hout. rewrite getitem_outside; [reflexivity | lia].
  - cbn [TrimList.indexrange r_start]. intros Hidx.
    destruct (read_below_start tl idx Hidx) as (v & Hget & Hget' & _).
    exists v. split; assumption.
Qed.

Lemma C1_witness :
  ChunkList.get (T := Z) ChunkList.__init__ 5 = Ret None /\
  TrimList.__getitem__ (TrimList.mk [10; 20; 30] 5) (TrimList.SubInt 8) = Raise IndexError.
Proof.
  split.
  - apply (proj1 (C1_read_outside_window Z ChunkList.__init__
                    (TrimList.mk [10; 20; 30] 5) 5)).
    simpl. lia.
  - apply (proj1 (proj2 (C1_read_outside_window Z ChunkList.__init__
                           (TrimList.mk [10; 20; 30] 5) 8))).
    simpl. unfold len. simpl. lia.
Defined.

(** ** ChunkListAdapter: sequences of calls *)

Section AdapterRuns.
Context {T : Type}.
Implicit Types (a : ChunkListAdapter.t T) (cs : list (ChunkListAdapter.call T)).

Lemma count_below (t : Z) (k : nat) :
  len (filter (fun i => i < t) (seqZ 0 (Z.of_nat k))) = Z.min (Z.max t 0) (Z.of_nat k).
Proof.
  unfold len. induction k as [|k IH].
  - rewrite seqZ_nil by (cbn; lia). cbn. lia.
  - rewrite seqZ_S, filter_app, length_app, Nat2Z.inj_add, IH.
    rewrite filter_singleton by exact []. cbn [Z.add].
    destruct (decide (0 + Z.of_nat k < t)); cbn [length]; lia.
Qed.

Lemma hidden_items_eq a :
  0 <= ChunkListAdapter._trimmed a <= ChunkList._stop (ChunkListAdapter._impl a) ->
  hidden_items a = ChunkListAdapter._trimmed a.
Proof.
  intros H. unfold hidden_items.
  rewrite <- (Z2Nat.id (ChunkList._stop (ChunkListAdapter._impl a))) by lia.
  rewrite count_below. lia.
Qed.

Lemma adapter_append a (v : T) :
  wf (ChunkListAdapter._impl a) ->
  exists a',
    ChunkListAdapter.append a v = Ret (a', None) /\
    ChunkList.append (ChunkListAdapter._impl a) v =
      Ret (ChunkListAdapter._impl a', ChunkList._stop (ChunkListAdapter._impl a)) /\
    ChunkListAdapter._trimmed a' = ChunkListAdapter._trimmed a /\
    ChunkList._stop (ChunkListAdapter._impl a') =
      ChunkList._stop (ChunkListAdapter._impl a) + 1 /\
    wf (ChunkListAdapter._impl a').
Proof.
  intros Hwf. unfold ChunkListAdapter.append.
  destruct (append_stores _ v Hwf) as (impl' & A & _ & _ & St & W).
  rewrite A. ret_step.
  exists (ChunkListAdapter.mk impl' (ChunkListAdapter._trimmed a)).
  repeat split; try assumption; apply W.
Qed.

(** A run of adapter calls never raises; every call returns [None]; [stop]
    counts the appends, and the trim point never passes [stop] when no
    [trim_before] asks for more than was appended. *)
Lemma adapter_run cs :
  forall a, wf (ChunkListAdapter._impl a) ->
  exists a' rs,
    ChunkListAdapter.run a cs = Ret (a', rs) /\
    wf (ChunkListAdapter._impl a') /\
    Forall (fun r => r = None) rs /\
    ChunkList._stop (ChunkListAdapter._impl a') =
      ChunkList._stop (ChunkListAdapter._impl a) + ChunkListAdapter.appends cs /\
    ChunkListAdapter._trimmed a <= ChunkListAdapter._trimmed a' /\
    (trims_within (ChunkList._stop (ChunkListAdapter._impl a)) cs ->
     ChunkListAdapter._trimmed a <= ChunkList._stop (ChunkListAdapter._impl a) ->
     ChunkListAdapter._trimmed a' <= ChunkList._stop (ChunkListAdapter._impl a')).
Proof.
  induction cs as [|c cs IH]; intros a Hwf.
  - exists a, []. cbn. repeat split; try apply Hwf; try constructor; lia.
  - destruct c as [v|idx]; cbn [ChunkListAdapter.run ChunkListAdapter.step].
    + destruct (adapter_append a v Hwf) as (a1 & A & _ & Tr & St & W).
      destruct (IH a1 W) as (a' & rs & Hrun & W' & Hnone & St' & Tr' & Hin).
      rewrite A. ret_step. rewrite Hrun. ret_step.
      exists a', (None :: rs). split; [reflexivity|]. split; [exact W'|].
      split; [now constructor|]. cbn [ChunkListAdapter.appends trims_within].
      split; [lia|]. split; [lia|]. intros Hw Hle. apply Hin.
      * now rewrite St.
      * lia.
    + ret_step.
      destruct (IH (ChunkListAdapter.trim_before a idx) Hwf)
        as (a' & rs & Hrun & W' & Hnone & St' & Tr' & Hin).
      rewrite Hrun. ret_step.
      exists a', (None :: rs). split; [reflexivity|]. split; [exact W'|].
      split; [now constructor|]. cbn [ChunkListAdapter.appends trims_within].
      cbn [ChunkListAdapter.trim_before ChunkListAdapter._impl
           ChunkListAdapter._trimmed] in *.
      split; [lia|]. split; [lia|]. intros [Hidx Hw] Hle. apply Hin; [exact Hw | lia].
Qed.

Lemma appends_nonneg cs : 0 <= ChunkListAdapter.appends cs.
Proof. induction cs as [|[v|idx] cs IH]; cbn; lia. Qed.

End AdapterRuns.

Lemma trim_list_appends_nonneg {T} (cs : list (TrimList.call T)) :
  0 <= TrimList.appends cs.
Proof. induction cs as [|[v|idx|] cs IH]; cbn; lia. Qed.

(** ** The contract: length, append indices, window *)

(** C2, as stated, fails: after two appends and [trim_before 1] a
    [TrimList] has the window [1, 2), so [stop - start] is 1, and its
    [__len__] is 2. *)
Lemma C2_len_counts_removed_items :
  exists (s : TrimList.t Z) rs,
    TrimList.run TrimList.__init__
      [TrimList.Append 10; TrimList.Append 20; TrimList.TrimBefore 1] = Ret (s, rs) /\
    TrimList.indexrange s = mkrange 1 2 1 /\
    r_stop (TrimList.indexrange s) - r_start (TrimList.indexrange s) = 1 /\
    TrimList.__len__ s = 2.
Proof. eexists _, _. repeat split. Qed.

(** C2, amended. After every sequence of contract calls, [__len__] of a
    [TrimList] and of a [ChunkListAdapter] is [indexrange().stop], the
    number of items ever appended. *)
Theorem C2_len_is_stop :
  (forall (T : Type) (cs : list (TrimList.call T)),
     exists s rs,
       TrimList.run TrimList.__init__ cs = Ret (s, rs) /\
       TrimList.__len__ s = r_stop (TrimList.indexrange s) /\
       TrimList.__len__ s = TrimList.appends cs) /\
  (forall (T : Type) (cs : list (ChunkListAdapter.call T)),
     exists a rs,
       ChunkListAdapter.run ChunkListAdapter.__init__ cs = Ret (a, rs) /\
       ChunkListAdapter.__len__ a = r_stop (ChunkListAdapter.indexrange a) /\
       ChunkListAdapter.__len__ a = ChunkListAdapter.appends cs).
Proof.
  split; intros T cs.
  - destruct (trim_list_run cs _ _ holds_init) as (s & rs & Hrun & Hall & _ & Happ & _).
    exists s, rs. split; [exact Hrun|]. split; [reflexivity|].
    unfold TrimList.__len__. rewrite (holds_len _ _ Hall), <- Happ.
    unfold len. cbn [app]. now rewrite length_fmap.
  - destruct (adapter_run cs ChunkListAdapter.__init__ wf_init)
      as (a & rs & Hrun & _ & _ & St & _).
    exists a, rs. split; [exact Hrun|]. split; [reflexivity|].
    cbn in *. lia.
Qed.

(** X1. Index stability on [TrimList]: the appends of a run return
    0, 1, 2, ... in this order, whatever trims and pops come between them. *)
Lemma trim_list_append_indices {T} (cs : list (TrimList.call T)) :
  exists s rs,
    TrimList.run TrimList.__init__ cs = Ret (s, rs) /\
    (TrimList.appended cs rs).*1 = seqZ 0 (TrimList.appends cs).
Proof.
  destruct (trim_list_run cs _ _ holds_init) as (s & rs & Hrun & _ & Hidx & Happ & _).
  exists s, rs. split; [exact Hrun|]. now rewrite Hidx, Happ.
Qed.

(** C4 on the code. After any sequence of adapter calls, every call has
    returned [None]; a further [ChunkListAdapter.append] stores the item at
    the next global index (the [ChunkList] below returns the number of
    appends made so far) and returns [None] to its caller, not that index. *)
Theorem C4_adapter_append_returns_none :
  forall (T : Type) (cs : list (ChunkListAdapter.call T)),
  exists a rs,
    ChunkListAdapter.run ChunkListAdapter.__init__ cs = Ret (a, rs) /\
    Forall (fun r => r = None) rs /\
    forall v : T,
    exists a',
      ChunkListAdapter.append a v = Ret (a', None) /\
      ChunkList.append (ChunkListAdapter._impl a) v =
        Ret (ChunkListAdapter._impl a', ChunkListAdapter.appends cs).
Proof.
  intros T cs.
  destruct (adapter_run cs ChunkListAdapter.__init__ wf_init)
    as (a & rs & Hrun & W & Hnone & St & _).
  exists a, rs. split; [exact Hrun|]. split; [exact Hnone|].
  intros v. destruct (adapter_append a v W) as (a' & A & B & _).
  exists a'. split; [exact A|]. rewrite B. cbn in St. rewrite St. reflexivity.
Qed.

(** C6, as stated, fails on the adapter: [trim_before 5] on a new
    [ChunkListAdapter] leaves the window [5, 0): [start] is above [stop],
    and no item was appended, let alone removed. *)
Lemma C6_adapter_trim_past_stop :
  exists (a : ChunkListAdapter.t Z) rs,
    ChunkListAdapter.run ChunkListAdapter.__init__ [ChunkListAdapter.TrimBefore 5]
      = Ret (a, rs) /\
    ChunkListAdapter.indexrange a = mkrange 5 0 1 /\
    r_stop (ChunkListAdapter.indexrange a) < r_start (ChunkListAdapter.indexrange a) /\
    hidden_items a = 0.
Proof. eexists _, _. repeat split. Qed.

(** C6, amended. After every sequence of [append], [trim_before] and
    [pop_left] on a [TrimList], [indexrange().start] is the number of items
    the calls handed back, [indexrange().stop] is the number of appends, and
    [start <= stop]. On a [ChunkListAdapter] (which has [append] and
    [trim_before] only and removes nothing: the items below its trim point
    stand for the removed ones) the same holds after every sequence in which
    no [trim_before] asks for an index above the number of items appended
    before it. *)
Theorem C6_window_invariant :
  (forall (T : Type) (cs : list (TrimList.call T)),
     exists s rs,
       TrimList.run TrimList.__init__ cs = Ret (s, rs) /\
       r_start (TrimList.indexrange s) = TrimList.removed cs rs /\
       r_stop (TrimList.indexrange s) = TrimList.appends cs /\
       r_start (TrimList.indexrange s) <= r_stop (TrimList.indexrange s)) /\
  (forall (T : Type) (cs : list (ChunkListAdapter.call T)),
     trims_within 0 cs ->
     exists a rs,
       ChunkListAdapter.run ChunkListAdapter.__init__ cs = Ret (a, rs) /\
       r_start (ChunkListAdapter.indexrange a) = hidden_items a /\
       r_stop (ChunkListAdapter.indexrange a) = ChunkListAdapter.appends cs /\
       r_start (ChunkListAdapter.indexrange a) <= r_stop (ChunkListAdapter.indexrange a)).
Proof.
  split; intros T cs.
  - destruct (trim_list_run cs _ _ holds_init)
      as (s & rs & Hrun & Hall & _ & Happ & Hrem).
    exists s, rs. split; [exact Hrun|].
    pose proof (holds_len _ _ Hall) as Hlen.
    assert (Hn : len ([] ++ (TrimList.appended cs rs).*2) = TrimList.appends cs).
    { rewrite <- Happ. unfold len. cbn [app]. now rewrite length_fmap. }
    cbn in *. repeat split; try lia. unfold len. lia.
  - intros Hw.
    destruct (adapter_run cs ChunkListAdapter.__init__ wf_init)
      as (a & rs & Hrun & _ & _ & St & Tr & Hin).
    exists a, rs. split; [exact Hrun|].
    specialize (Hin Hw). cbn in St, Tr, Hin |- *.
    pose proof (appends_nonneg cs).
    rewrite hidden_items_eq by lia. repeat split; lia.
Qed.

Lemma C6_witness :
  exists (a : ChunkListAdapter.t Z) rs,
    ChunkListAdapter.run ChunkListAdapter.__init__
      [ChunkListAdapter.Append 10; ChunkListAdapter.Append 20;
       ChunkListAdapter.TrimBefore 1] = Ret (a, rs) /\
    r_start (ChunkListAdapter.indexrange a) = hidden_items a /\
    r_stop (ChunkListAdapter.indexrange a) = 2 /\
    r_start (ChunkListAdapter.indexrange a) <= r_stop (ChunkListAdapter.indexrange a).
Proof.
  apply (proj2 C6_window_invariant Z
           [ChunkListAdapter.Append 10; ChunkListAdapter.Append 20;
            ChunkListAdapter.TrimBefore 1]).
  simpl. lia.
Defined.

(** ** Read after write *)

Section Logs.
Context {V : Type}.
Implicit Types (log : list (Z * V)).

Lemma last_write_absent log i : i ∉ log.*1 -> last_write log i = None.
Proof.
  induction log as [|[j u] log IH]; [reflexivity|]. cbn. intros Hnot.
  rewrite IH by (intros Hin; apply Hnot; now right).
  destruct (Z.eqb_spec i j) as [->|]; [|reflexivity].
  exfalso. apply Hnot. now left.
Qed.

(** In a log whose indices are consecutive from [base], the last write at
    [base + k] is the [k]-th entry. *)
Lemma last_write_indexed log :
  forall base, log.*1 = seqZ base (len log) ->
  forall (k : nat) v, log.*2 !! k = Some v ->
    last_write log (base + Z.of_nat k) = Some v.
Proof.
  unfold len. induction log as [|[j u] log IH]; intros base Hidx k v Hk.
  - discriminate.
  - cbn [length fmap list_fmap fst] in Hidx.
    rewrite seqZ_cons in Hidx by lia. injection Hidx as -> Hidx.
    replace (Z.pred (Z.of_nat (S (length log)))) with (Z.of_nat (length log))
      in Hidx by lia.
    cbn [last_write]. destruct k as [|k].
    + cbn in Hk. injection Hk as ->. rewrite Z.add_0_r.
      rewrite last_write_absent, Z.eqb_refl; [reflexivity|].
      rewrite Hidx, elem_of_seqZ. lia.
    + cbn in Hk. replace (base + Z.of_nat (S k)) with (Z.succ base + Z.of_nat k) by lia.
      now rewrite (IH _ Hidx k v Hk).
Qed.

End Logs.




(** ** Writes beyond the capacity *)

(** [put] looks at the low 21 bits of the index only. *)
Lemma put_low_bits {T} (self : ChunkList.t T) (idx : Z) (item : option T) :
  ChunkList.put self idx item = ChunkList.put self (idx mod capacity) item.
Proof.
  unfold ChunkList.put, capacity. rewrite !decompose_eq. cbv beta iota.
  replace (idx mod (128 * 128 * 128) / 128 / 128 mod 128)
    with (idx / 128 / 128 mod 128) by (Z.div_mod_to_equations; lia).
  replace (idx mod (128 * 128 * 128) / 128 mod 128)
    with (idx / 128 mod 128) by (Z.div_mod_to_equations; lia).
  replace (idx mod (128 * 128 * 128) mod 128)
    with (idx mod 128) by (Z.div_mod_to_equations; lia).
  reflexivity.
Qed.

(** C3 on the code. In every state reached by appends and writes, a
    [put] at an index at or beyond 128^3 raises nothing: it is the [put] at
    the index spelled by the low 21 bits, and when that index is in the
    window a later [get] of it returns the item just written. *)
Theorem C3_put_beyond_capacity_wraps :
  forall (T : Type) (cs : list (ChunkList.call T)) (idx : Z) (item : option T),
    capacity <= idx ->
    exists self log self',
      ChunkList.run ChunkList.__init__ cs = Ret (self, log) /\
      ChunkList.put self idx item = Ret self' /\
      ChunkList.put self (idx mod capacity) item = Ret self' /\
      (r_start (ChunkList.keyrange self') <= idx mod capacity
         < r_stop (ChunkList.keyrange self') ->
       ChunkList.get self' (idx mod capacity) = Ret item).
Proof.
  intros T cs idx item _.
  destruct (run_stores cs _ wf_init) as (self & log & Hrun & W & _ & _ & _).
  destruct (put_stores self idx item W) as (self' & Hput & D & _ & _ & W').
  exists self, log, self'. split; [exact Hrun|]. split; [exact Hput|].
  split; [now rewrite <- put_low_bits|].
  cbn. intros Hwin. rewrite get_reads by exact W'.
  replace ((ChunkList._start self' <=? idx mod capacity)
           && (idx mod capacity <? ChunkList._stop self'))
    with true by (symmetry; apply andb_true_intro; split;
                  [apply Z.leb_le | apply Z.ltb_lt]; lia).
  rewrite D. unfold capacity. rewrite <- path_low_bits.
  rewrite peek_poke_same; [reflexivity | apply W | apply path_in_path].
Qed.

Lemma C3_witness :
  exists (self : ChunkList.t Z) log self',
    ChunkList.run ChunkList.__init__ [ChunkList.Append 1] = Ret (self, log) /\
    ChunkList.get self 0 = Ret (Some 1) /\
    ChunkList.put self 2097152 (Some 2) = Ret self' /\
    ChunkList.get self' 0 = Ret (Some 2).
Proof.
  destruct (C3_put_beyond_capacity_wraps Z [ChunkList.Append 1] 2097152 (Some 2))
    as (self & log & self' & Hrun & Hput & Hlow & Hget).
  { unfold capacity. lia. }
  exists self, log, self'. split; [exact Hrun|].
  vm_compute in Hrun. injection Hrun as <- <-.
  split; [reflexivity|]. split; [exact Hput|].
  vm_compute in Hput. injection Hput as <-.
  apply Hget. clear. change (2097152 mod capacity) with 0. simpl. lia.
Defined.

(** ** ChunkList.enumerate *)

Section Enumerate.
Context {T : Type}.
Implicit Types (self : ChunkList.t T) (l : list Z).

Lemma range_items_unit lo hi : lo < hi -> range_items (mkrange lo hi 1) = seqZ lo (hi - lo).
Proof.
  intros Hlt. unfold range_items, range_len, seqZ. cbn [r_start r_stop r_step].
  replace (0 <? 1) with true by reflexivity.
  replace (lo <? hi) with true by (symmetry; now apply Z.ltb_lt).
  rewrite Z.div_1_r. replace (hi - lo - 1 + 1) with (hi - lo) by lia.
  apply list_fmap_ext. intros _ k _. lia.
Qed.

Lemma pair_at_returns self i :
  wf self ->
  exists v, ChunkList.get self i = Ret v /\ ChunkList.pair_at self i = Ret (i, v).
Proof.
  intros Hwf. unfold ChunkList.pair_at. rewrite (get_reads self i Hwf).
  eexists. split; reflexivity.
Qed.

Lemma for_each_pairs self l : wf self -> yields self l (for_each (ChunkList.pair_at self) l).
Proof.
  intros Hwf. induction l as [|i l (out & E & Hidx & Hall)].
  - exists []. now repeat split.
  - destruct (pair_at_returns self i Hwf) as (v & Hget & Hpair).
    cbn [for_each]. rewrite Hpair. ret_step. rewrite E. ret_step.
    exists ((i, v) :: out). split; [reflexivity|]. split; [cbn; now rewrite Hidx|].
    constructor; [exact Hget | exact Hall].
Qed.

Lemma in_window_filter self l :
  filter (fun idx => Is_true ((ChunkList._start self <=? idx) && (idx <? ChunkList._stop self))) l
  = selected self l.
Proof.
  apply list_filter_iff. intros i.
  rewrite Is_true_true, andb_true_iff, Z.leb_le, Z.ltb_lt. reflexivity.
Qed.

(** A selector of step 1 (or [None]): the bounds, clipped to the window. *)
Lemma enumerate_unit_step self sel a b :
  wf self ->
  ChunkList.unit_step
    match sel with
    | ChunkList.SelNone => ChunkList.SelRange (ChunkList.keyrange self)
    | _ => sel
    end = Some (a, b) ->
  yields self (span self a b) (ChunkList.enumerate self sel).
Proof.
  intros Hwf Hsel. unfold ChunkList.enumerate. rewrite Hsel.
  unfold span, lower, upper.
  set (lo := Z.max _ (ChunkList._start self)).
  set (hi := Z.min _ (ChunkList._stop self)).
  destruct (Z.ltb_spec lo hi) as [Hlt|Hge]; cbn [negb].
  - rewrite range_items_unit by exact Hlt. now apply for_each_pairs.
  - rewrite seqZ_nil by lia. exists []. now repeat split.
Qed.



End Enumerate.

(** A slice of another step becomes the range of its three fields. *)
Lemma enumerate_stepped_slice {T} (self : ChunkList.t T) (a b : option Z) (c : Z) :
  wf self -> c <> 1 ->
  match range_of a b (Some c) with
  | Ret r => yields self (selected self (range_items r))
               (ChunkList.enumerate self (ChunkList.SelSlice a b (Some c)))
  | Raise e => ChunkList.enumerate self (ChunkList.SelSlice a b (Some c)) = Raise e
  end.
Proof.
  intros Hwf Hstep. unfold ChunkList.enumerate. cbn [ChunkList.unit_step].
  replace (c =? 1) with false by (symmetry; now apply Z.eqb_neq).
  destruct (range_of a b (Some c)) as [r|e]; ret_step; [|reflexivity].
  rewrite in_window_filter. now apply for_each_pairs.
Qed.




(** * Further properties of the three classes *)

(** ** TrimList: how the calls compose *)

Section TrimListCompose.
Context {T : Type}.
Implicit Types (self : TrimList.t T) (idx : Z).

(** An index of the window reads the deque item at its offset. *)
Lemma read_in_window self idx :
  TrimList._pop_count self <= idx < TrimList._pop_count self + len (TrimList._data self) ->
  exists x,
    TrimList._data self !! Z.to_nat (idx - TrimList._pop_count self) = Some x /\
    TrimList.__getitem__ self (TrimList.SubInt idx) = Ret (inl x).
Proof.
  intros Hidx. cbn [TrimList.__getitem__].
  destruct (getitem_inside (TrimList._data self) (idx - TrimList._pop_count self))
    as (x & Hx & Hget); [lia|].
  exists x. rewrite Hget. split; [exact Hx | reflexivity].
Qed.

Lemma trim_count_bound self idx :
  (trim_count self idx <= length (TrimList._data self))%nat.
Proof. unfold trim_count, len. lia. Qed.

End TrimListCompose.

(** X2. [TrimList.pop_left] is [trim_before] of one item: on every list it
    returns what [trim_before (start + 1)] returns, with the first of the
    trimmed values (or [None]) as its result. On an empty list it returns
    [None] and leaves the list as it was; otherwise it returns the item that
    index [start] reads and moves [start] up by one. *)
Theorem X2_pop_left_trims_one :
  forall (T : Type) (self : TrimList.t T),
    let start := r_start (TrimList.indexrange self) in
    TrimList.pop_left self =
      (fun '(s, values) => (s, head values)) <$> TrimList.trim_before self (start + 1) /\
    (TrimList._data self = [] -> TrimList.pop_left self = Ret (self, None)) /\
    (forall x d, TrimList._data self = x :: d ->
       TrimList.pop_left self = Ret (TrimList.mk d (start + 1), Some x) /\
       TrimList.__getitem__ self (TrimList.SubInt start) = Ret (inl x)).
Proof.
  intros T self start. subst start. cbn [TrimList.indexrange r_start].
  rewrite pop_left_pops, trim_before_pops. unfold trim_count.
  destruct self as [data pc]. cbn [TrimList._data TrimList._pop_count].
  destruct data as [|x d].
  - replace (Z.to_nat (Z.min (len (@nil T)) (Z.max 0 (pc + 1 - pc)))) with 0%nat
      by (unfold len; cbn [length]; lia).
    split; [|split].
    + cbn. now rewrite Z.add_0_r.
    + reflexivity.
    + intros x d Hd. discriminate Hd.
  - replace (Z.to_nat (Z.min (len (x :: d)) (Z.max 0 (pc + 1 - pc)))) with 1%nat
      by (unfold len; cbn [length]; lia).
    split; [|split].
    + cbn. now rewrite drop_0.
    + intros Hd. discriminate Hd.
    + intros x' d' Hd. injection Hd as <- <-. split; [reflexivity|].
      cbn. rewrite Z.sub_diag. reflexivity.
Qed.

Lemma X2_witness :
  TrimList.pop_left (TrimList.mk [10; 20; 30] 5)
    = Ret (TrimList.mk [20; 30] (5 + 1), Some 10) /\
  TrimList.__getitem__ (TrimList.mk [10; 20; 30] 5) (TrimList.SubInt 5) = Ret (inl 10).
Proof.
  apply (proj2 (proj2 (X2_pop_left_trims_one Z (TrimList.mk [10; 20; 30] 5)))).
  reflexivity.
Defined.

(** X3. Two trims in a row are one trim: after [trim_before j], a
    [trim_before k] with [j <= k] leaves the list that [trim_before k] alone
    leaves, and the values the two calls return, joined in call order, are the
    values the single call returns. *)
Theorem X3_trim_before_composes :
  forall (T : Type) (self : TrimList.t T) (j k : Z),
    j <= k ->
    exists s1 r1 s2 r2,
      TrimList.trim_before self j = Ret (s1, r1) /\
      TrimList.trim_before s1 k = Ret (s2, r2) /\
      TrimList.trim_before self k = Ret (s2, r1 ++ r2).
Proof.
  intros T self j k Hjk. eexists _, _, _, _.
  split; [apply trim_before_pops|]. split; [apply trim_before_pops|].
  rewrite trim_before_pops.
  set (n1 := trim_count self j).
  set (s1 := TrimList.mk (drop n1 (TrimList._data self))
                         (TrimList._pop_count self + Z.of_nat n1)).
  assert (Hn : trim_count self k = (n1 + trim_count s1 k)%nat).
  { unfold s1, n1, trim_count. cbn [TrimList._data TrimList._pop_count].
    unfold len. rewrite length_drop. lia. }
  rewrite Hn. generalize (trim_count s1 k). intros n2. subst s1.
  cbn [TrimList._data TrimList._pop_count].
  rewrite drop_drop, take_take_drop.
  replace (TrimList._pop_count self + Z.of_nat n1 + Z.of_nat n2)
    with (TrimList._pop_count self + Z.of_nat (n1 + n2)) by lia.
  reflexivity.
Qed.

Lemma X3_witness :
  exists s1 r1 s2 r2,
    TrimList.trim_before (TrimList.mk [10; 20; 30; 40] 5) 6 = Ret (s1, r1) /\
    TrimList.trim_before s1 8 = Ret (s2, r2) /\
    TrimList.trim_before (TrimList.mk [10; 20; 30; 40] 5) 8 = Ret (s2, r1 ++ r2).
Proof.
  apply (X3_trim_before_composes Z (TrimList.mk [10; 20; 30; 40] 5) 6 8). lia.
Defined.

(** X4. Indices are stable on a [TrimList]: no call of the contract raises,
    and an index that is in the window before and after the call reads the
    same value after it as before. An [append] keeps every index of the
    window; a [trim_before] or [pop_left] keeps those it has not removed. *)
Theorem X4_reads_survive_calls :
  forall (T : Type) (self : TrimList.t T) (c : TrimList.call T),
  exists self' r,
    TrimList.step self c = Ret (self', r) /\
    r_stop (TrimList.indexrange self) <= r_stop (TrimList.indexrange self') /\
    r_start (TrimList.indexrange self) <= r_start (TrimList.indexrange self') /\
    forall i,
      r_start (TrimList.indexrange self') <= i < r_stop (TrimList.indexrange self) ->
      exists x,
        TrimList.__getitem__ self (TrimList.SubInt i) = Ret (inl x) /\
        TrimList.__getitem__ self' (TrimList.SubInt i) = Ret (inl x).
Proof.
  intros T self c.
  assert (Hdrop : forall n : nat,
    (n <= length (TrimList._data self))%nat ->
    let self' := TrimList.mk (drop n (TrimList._data self))
                             (TrimList._pop_count self + Z.of_nat n) in
    r_stop (TrimList.indexrange self) <= r_stop (TrimList.indexrange self') /\
    r_start (TrimList.indexrange self) <= r_start (TrimList.indexrange self') /\
    forall i,
      r_start (TrimList.indexrange self') <= i < r_stop (TrimList.indexrange self) ->
      exists x,
        TrimList.__getitem__ self (TrimList.SubInt i) = Ret (inl x) /\
        TrimList.__getitem__ self' (TrimList.SubInt i) = Ret (inl x)).
  { intros n Hn self'. subst self'.
    cbn [TrimList.indexrange r_start r_stop TrimList._data TrimList._pop_count].
    unfold len. rewrite length_drop. split; [lia|]. split; [lia|]. intros i Hi.
    destruct (read_in_window self i) as (x & Hx & Hget); [unfold len; lia|].
    destruct (read_in_window
                (TrimList.mk (drop n (TrimList._data self))
                             (TrimList._pop_count self + Z.of_nat n)) i)
      as (x' & Hx' & Hget').
    { cbn [TrimList._data TrimList._pop_count]. unfold len.
      rewrite length_drop. lia. }
    cbn [TrimList._data TrimList._pop_count] in Hx'.
    rewrite lookup_drop in Hx'.
    replace (n + Z.to_nat (i - (TrimList._pop_count self + Z.of_nat n)))%nat
      with (Z.to_nat (i - TrimList._pop_count self)) in Hx' by lia.
    assert (x' = x) by congruence. subst x'. exists x. split; assumption. }
  destruct c as [v|idx|]; cbn [TrimList.step].
  - unfold TrimList.append. eexists _, _. split; [reflexivity|].
    cbn [TrimList.indexrange r_start r_stop TrimList._data TrimList._pop_count].
    unfold len. rewrite length_app. cbn [length]. split; [lia|]. split; [lia|].
    intros i Hi.
    destruct (read_in_window self i) as (x & Hx & Hget); [unfold len; lia|].
    exists x. split; [exact Hget|]. cbn [TrimList.__getitem__ TrimList._data TrimList._pop_count].
    destruct (getitem_inside (TrimList._data self ++ [v]) (i - TrimList._pop_count self))
      as (x' & Hx' & Hget').
    { unfold len. rewrite length_app. cbn [length]. lia. }
    rewrite lookup_app_l in Hx' by lia.
    assert (x' = x) by congruence. subst x'. rewrite Hget'. reflexivity.
  - rewrite trim_before_pops. ret_step. eexists _, _. split; [reflexivity|].
    apply Hdrop. apply trim_count_bound.
  - rewrite pop_left_pops. ret_step.
    destruct self as [data pc]. cbn [TrimList._data TrimList._pop_count] in *.
    destruct data as [|x d]; ret_step; eexists _, _; (split; [reflexivity|]).
    + specialize (Hdrop 0%nat (Nat.le_0_l _)). cbn [drop] in Hdrop.
      rewrite Z.add_0_r in Hdrop. exact Hdrop.
    + specialize (Hdrop 1%nat). cbn [drop length] in Hdrop.
      rewrite drop_0 in Hdrop. apply Hdrop. lia.
Qed.

Lemma X4_witness :
  exists self' r,
    TrimList.step (TrimList.mk [10; 20; 30] 5) (TrimList.TrimBefore 6) = Ret (self', r) /\
    exists x : Z,
      TrimList.__getitem__ (TrimList.mk [10; 20; 30] 5) (TrimList.SubInt 7) = Ret (inl x) /\
      TrimList.__getitem__ self' (TrimList.SubInt 7) = Ret (inl x).
Proof.
  destruct (X4_reads_survive_calls Z (TrimList.mk [10; 20; 30] 5) (TrimList.TrimBefore 6))
    as (self' & r & Hstep & _ & _ & Hread).
  exists self', r. split; [exact Hstep|].
  vm_compute in Hstep. injection Hstep as <- <-.
  apply Hread. simpl. unfold len. simpl. lia.
Defined.

(** ** ChunkList: writes, reads and the pool *)

Section ChunkListMore.
Context {T : Type}.
Implicit Types (self : ChunkList.t T) (idx : Z) (item : option T).

(** The appends of a run return consecutive indices from [stop] on. *)
Lemma chunk_run_indices (cs : list (ChunkList.call T)) :
  forall self, wf self ->
  exists self' log,
    ChunkList.run self cs = Ret (self', log) /\
    append_indices cs log = seqZ (ChunkList._stop self) (chunk_appends cs) /\
    ChunkList._stop self' = ChunkList._stop self + chunk_appends cs /\
    0 <= chunk_appends cs.
Proof.
  induction cs as [|c cs IH]; intros self Hwf.
  - exists self, []. cbn. rewrite seqZ_nil by lia. repeat split; lia.
  - destruct c as [x|idx item]; cbn [ChunkList.run ChunkList.step].
    + destruct (append_stores self x Hwf) as (self1 & A & _ & _ & St & W).
      destruct (IH self1 W) as (self' & log & Hrun & Hidx & St' & Hn).
      rewrite A. ret_step. rewrite Hrun. ret_step.
      eexists _, _. split; [reflexivity|].
      cbn [append_indices chunk_appends]. rewrite Hidx, St.
      split; [|split; lia].
      rewrite (seqZ_cons (ChunkList._stop self)) by lia.
      f_equal. f_equal; lia.
    + destruct (put_stores self idx item Hwf) as (self1 & P & _ & _ & St & W).
      destruct (IH self1 W) as (self' & log & Hrun & Hidx & St' & Hn).
      rewrite P. ret_step. rewrite Hrun. ret_step.
      eexists _, _. split; [reflexivity|].
      cbn [append_indices chunk_appends]. rewrite Hidx, St. repeat split; lia.
Qed.

(** A run of appends logs each value at the next index. *)
Lemma appends_log (vs : list T) :
  forall self, wf self ->
  exists self',
    ChunkList.run self (ChunkList.Append <$> vs)
      = Ret (self', zip (seqZ (ChunkList._stop self) (len vs)) (Some <$> vs)) /\
    ChunkList._stop self' = ChunkList._stop self + len vs /\
    ChunkList._start self' = ChunkList._start self /\
    wf self'.
Proof.
  unfold len. induction vs as [|v vs IH]; intros self Hwf.
  - exists self. cbn. rewrite seqZ_nil by lia. repeat split; try apply Hwf; lia.
  - destruct (append_stores self v Hwf) as (self1 & A & _ & S & St & W).
    destruct (IH self1 W) as (self' & Hrun & St' & S' & W').
    cbn [fmap list_fmap ChunkList.run ChunkList.step]. rewrite A. ret_step.
    change (list_fmap T (ChunkList.call T) ChunkList.Append vs)
      with (ChunkList.Append <$> vs).
    rewrite Hrun. ret_step. exists self'.
    split; [|repeat split; try apply W'; cbn [length]; lia].
    cbn [length]. rewrite (seqZ_cons (ChunkList._stop self)) by lia.
    rewrite St. cbn [zip zip_with]. repeat f_equal; lia.
Qed.

End ChunkListMore.

Section ChunkListReads.
Context {T : Type}.
Implicit Types (self : ChunkList.t T) (idx : Z) (item : option T).

Lemma indexed_log_in_capacity (log : list (Z * option T)) (n : Z) :
  log.*1 = seqZ 0 n -> n <= capacity -> Forall in_capacity log.
Proof.
  intros Hidx Hn. unfold in_capacity.
  apply (Forall_fmap fst (fun i => 0 <= i < capacity) log).
  rewrite Hidx. apply Forall_seqZ. lia.
Qed.

(** After a run of appends inside the capacity, index [k] reads the
    [k]-th appended value. *)
Lemma appends_read (vs : list T) :
  len vs <= capacity ->
  exists self,
    ChunkList.run ChunkList.__init__ (ChunkList.Append <$> vs)
      = Ret (self, zip (seqZ 0 (len vs)) (Some <$> vs)) /\
    wf self /\
    ChunkList._start self = 0 /\
    ChunkList._stop self = len vs /\
    forall (k : nat) v, vs !! k = Some v ->
      ChunkList.get self (Z.of_nat k) = Ret (Some v).
Proof.
  intros Hcap.
  destruct (appends_log vs _ wf_init) as (self & Hrun & St & S & W).
  cbn [ChunkList.__init__ ChunkList._stop ChunkList._start] in Hrun, St, S.
  exists self. split; [exact Hrun|]. split; [exact W|]. split; [exact S|].
  split; [lia|]. intros k v Hk.
  destruct (chunk_list_read_after_write (ChunkList.Append <$> vs))
    as (self0 & log & Hrun0 & Hread).
  rewrite Hrun in Hrun0. injection Hrun0 as <- <-.
  assert (Hlen : length (seqZ 0 (len vs)) = length (Some <$> vs)).
  { rewrite length_seqZ, length_fmap. unfold len. lia. }
  assert (Hfst : (zip (seqZ 0 (len vs)) (Some <$> vs)).*1 = seqZ 0 (len vs)).
  { apply fst_zip. lia. }
  assert (Hsnd : (zip (seqZ 0 (len vs)) (Some <$> vs)).*2 = Some <$> vs).
  { apply snd_zip. lia. }
  assert (Hk' : (k < length vs)%nat) by (apply lookup_lt_is_Some; eauto).
  apply Hread.
  - eapply indexed_log_in_capacity; [exact Hfst | exact Hcap].
  - unfold len in *. lia.
  - replace (Z.of_nat k) with (0 + Z.of_nat k) by lia.
    apply last_write_indexed.
    + rewrite Hfst. f_equal. unfold len.
      rewrite length_zip_with, length_seqZ, length_fmap. lia.
    + rewrite Hsnd, list_lookup_fmap, Hk. reflexivity.
Qed.

End ChunkListReads.

(** X5. In every state reached by appends and writes, [ChunkList.put]
    raises nothing for any integer index, and it changes neither [start] nor
    [stop]. When its index is in the window, a [get] of it returns the item
    just written; and when its index is inside the capacity, [get] of every
    other index inside the capacity returns what it returned before. *)
Theorem X5_put_changes_one_slot :
  forall (T : Type) (cs : list (ChunkList.call T)) (idx : Z) (item : option T),
  exists self log self',
    ChunkList.run ChunkList.__init__ cs = Ret (self, log) /\
    ChunkList.put self idx item = Ret self' /\
    ChunkList.keyrange self' = ChunkList.keyrange self /\
    (r_start (ChunkList.keyrange self) <= idx < r_stop (ChunkList.keyrange self) ->
       ChunkList.get self' idx = Ret item) /\
    (0 <= idx < capacity ->
     forall i, 0 <= i < capacity -> i <> idx ->
       ChunkList.get self' i = ChunkList.get self i).
Proof.
  intros T cs idx item.
  destruct (run_stores cs _ wf_init) as (self & log & Hrun & W & _ & _ & _).
  destruct (put_stores self idx item W) as (self' & Hput & D & S & St & W').
  exists self, log, self'. split; [exact Hrun|]. split; [exact Hput|].
  split; [unfold ChunkList.keyrange; now rewrite S, St|]. split.
  - cbn. intros Hwin. rewrite get_reads by exact W'. rewrite S, St.
    replace ((ChunkList._start self <=? idx) && (idx <? ChunkList._stop self))
      with true by (symmetry; apply andb_true_intro; split;
                    [apply Z.leb_le | apply Z.ltb_lt]; lia).
    rewrite D. rewrite peek_poke_same; [reflexivity | apply W | apply path_in_path].
  - intros Hidx i Hi Hne. rewrite !get_reads by assumption. rewrite S, St, D.
    rewrite peek_poke_other; [reflexivity | apply W | apply path_in_path |].
    intros Heq. apply Hne. symmetry. now apply path_injective.
Qed.

Lemma X5_witness :
  exists (self : ChunkList.t Z) log self',
    ChunkList.run ChunkList.__init__ [ChunkList.Append 10; ChunkList.Append 20]
      = Ret (self, log) /\
    ChunkList.put self 1 (Some 21) = Ret self' /\
    ChunkList.get self' 1 = Ret (Some 21) /\
    ChunkList.get self' 0 = ChunkList.get self 0.
Proof.
  destruct (X5_put_changes_one_slot Z [ChunkList.Append 10; ChunkList.Append 20]
              1 (Some 21)) as (self & log & self' & Hrun & Hput & _ & Hsame & Hother).
  exists self, log, self'. split; [exact Hrun|]. split; [exact Hput|].
  vm_compute in Hrun. injection Hrun as <- <-. split.
  - apply Hsame. simpl. lia.
  - apply Hother; unfold capacity; lia.
Defined.

(** X6. Index stability on [ChunkList]: in every sequence of appends and
    writes on a new list, the appends return 0, 1, 2, ... in call order,
    whatever writes come between them, and afterwards [keyrange()] is
    [range(0, number of appends)]. *)
Theorem X6_chunk_list_append_indices :
  forall (T : Type) (cs : list (ChunkList.call T)),
  exists self log,
    ChunkList.run ChunkList.__init__ cs = Ret (self, log) /\
    append_indices cs log = seqZ 0 (chunk_appends cs) /\
    ChunkList.keyrange self = mkrange 0 (chunk_appends cs) 1.
Proof.
  intros T cs.
  destruct (chunk_run_indices cs _ wf_init) as (self & log & Hrun & Hidx & St & _).
  destruct (run_stores cs _ wf_init) as (self0 & log0 & Hrun0 & _ & S & _).
  rewrite Hrun in Hrun0. injection Hrun0 as <- <-.
  exists self, log. split; [exact Hrun|]. split; [exact Hidx|].
  unfold ChunkList.keyrange. rewrite S, St. reflexivity.
Qed.



(** X8. Listing what was appended: after appending the values [vs], no
    more of them than the capacity 128^3, to a new [ChunkList],
    [enumerate()] without a selector yields the pairs [(0, vs[0])],
    [(1, vs[1])], ... of all of them, in the order appended. *)
Theorem X8_enumerate_lists_appended :
  forall (T : Type) (vs : list T),
    len vs <= capacity ->
    exists self log,
      ChunkList.run ChunkList.__init__ (ChunkList.Append <$> vs) = Ret (self, log) /\
      ChunkList.enumerate self ChunkList.SelNone
        = Ret (zip (seqZ 0 (len vs)) (Some <$> vs)).
Proof.
  intros T vs Hcap.
  destruct (appends_read vs Hcap) as (self & Hrun & W & S & St & Hget).
  eexists _, _. split; [exact Hrun|].
  destruct (enumerate_unit_step self ChunkList.SelNone
              (Some (ChunkList._start self)) (Some (ChunkList._stop self)) W eq_refl)
    as (out & -> & Hidx & Hall).
  f_equal.
  assert (Hspan : out.*1 = seqZ 0 (len vs)).
  { rewrite Hidx. unfold span, lower, upper. rewrite S, St.
    replace (0 <? 0) with false by reflexivity.
    replace (len vs <? 0) with false by (symmetry; apply Z.ltb_ge; unfold len; lia).
    f_equal; unfold len; lia. }
  rewrite <- (zip_fst_snd out), Hspan. f_equal.
  apply list_eq. intros k. rewrite list_lookup_fmap.
  destruct (out !! k) as [[i v]|] eqn:Hk.
  - assert (Hi : seqZ 0 (len vs) !! k = Some i).
    { rewrite <- Hspan, list_lookup_fmap, Hk. reflexivity. }
    apply lookup_seqZ in Hi as [-> Hlt].
    destruct (lookup_lt_is_Some_2 vs k) as [x Hx]; [unfold len in Hlt; lia|].
    pose proof (proj1 (Forall_lookup _ _) Hall k _ Hk) as Hv. cbn [fst snd] in Hv.
    rewrite Z.add_0_l, (Hget k x Hx) in Hv. injection Hv as <-.
    cbn. rewrite list_lookup_fmap, Hx. reflexivity.
  - cbn. symmetry. rewrite list_lookup_fmap.
    assert (Hnone : seqZ 0 (len vs) !! k = None).
    { rewrite <- Hspan, list_lookup_fmap, Hk. reflexivity. }
    apply lookup_ge_None in Hnone. rewrite length_seqZ in Hnone.
    rewrite (proj2 (lookup_ge_None vs k)); [reflexivity|]. unfold len in Hnone. lia.
Qed.

Lemma X8_witness :
  exists (self : ChunkList.t Z) log,
    ChunkList.run ChunkList.__init__ (ChunkList.Append <$> [10; 20; 30]) = Ret (self, log) /\
    ChunkList.enumerate self ChunkList.SelNone
      = Ret (zip (seqZ 0 (len [10; 20; 30])) (Some <$> [10; 20; 30])).
Proof.
  apply (X8_enumerate_lists_appended Z [10; 20; 30]).
  unfold len, capacity. simpl. lia.
Defined.

(** ** ChunkListAdapter: what an index reads *)

Section AdapterReads.
Context {T : Type}.
Implicit Types (a : ChunkListAdapter.t T) (cs : list (ChunkListAdapter.call T)).

Lemma adapter_appended_len cs : len (adapter_appended cs) = ChunkListAdapter.appends cs.
Proof.
  unfold len. induction cs as [|[v|idx] cs IH]; cbn [adapter_appended
    ChunkListAdapter.appends length]; lia.
Qed.

(** The [ChunkList] inside the adapter goes through the appends of the
    calls; the trims do not touch it. *)
Lemma adapter_impl_run cs :
  forall a, wf (ChunkListAdapter._impl a) ->
  exists a' rs log,
    ChunkListAdapter.run a cs = Ret (a', rs) /\
    ChunkList.run (ChunkListAdapter._impl a) (ChunkList.Append <$> adapter_appended cs)
      = Ret (ChunkListAdapter._impl a', log).
Proof.
  induction cs as [|c cs IH]; intros a Hwf.
  - exists a, [], []. split; reflexivity.
  - destruct c as [v|idx]; cbn [ChunkListAdapter.run ChunkListAdapter.step adapter_appended].
    + destruct (adapter_append a v Hwf) as (a1 & A & B & _ & _ & W).
      destruct (IH a1 W) as (a' & rs & log & Hrun & Himpl).
      rewrite A. ret_step. rewrite Hrun. ret_step.
      cbn [fmap list_fmap ChunkList.run ChunkList.step]. rewrite B. ret_step.
      change (list_fmap T (ChunkList.call T) ChunkList.Append (adapter_appended cs))
        with (ChunkList.Append <$> adapter_appended cs).
      rewrite Himpl. ret_step. eexists _, _, _. split; reflexivity.
    + ret_step. destruct (IH (ChunkListAdapter.trim_before a idx) Hwf)
        as (a' & rs & log & Hrun & Himpl).
      rewrite Hrun. ret_step. eexists _, _, _. split; [reflexivity|]. exact Himpl.
Qed.

End AdapterReads.

(** X9. What the adapter serves. After any sequence of [append] and
    [trim_before] calls on a new [ChunkListAdapter] that appends no more
    items than the capacity 128^3, reading an index of [indexrange()]
    returns the value appended at that index (the [i]-th appended value for
    index [i]), and reading any index below the trim point or at or above
    [stop] returns [None]; no read raises. *)
Theorem X9_adapter_reads_appended_values :
  forall (T : Type) (cs : list (ChunkListAdapter.call T)),
    ChunkListAdapter.appends cs <= capacity ->
    exists a rs,
      ChunkListAdapter.run ChunkListAdapter.__init__ cs = Ret (a, rs) /\
      forall i,
        (i < r_start (ChunkListAdapter.indexrange a) \/
         r_stop (ChunkListAdapter.indexrange a) <= i ->
           ChunkListAdapter.__getitem__ a i = Ret None) /\
        (r_start (ChunkListAdapter.indexrange a) <= i
           < r_stop (ChunkListAdapter.indexrange a) ->
           exists v,
             adapter_appended cs !! Z.to_nat i = Some v /\
             ChunkListAdapter.__getitem__ a i = Ret (Some v)).
Proof.
  intros T cs Hcap.
  destruct (adapter_impl_run cs ChunkListAdapter.__init__ wf_init)
    as (a & rs & log & Hrun & Himpl).
  destruct (adapter_run cs ChunkListAdapter.__init__ wf_init)
    as (a0 & rs0 & Hrun0 & _ & _ & _ & Tr & _).
  rewrite Hrun in Hrun0. injection Hrun0 as <- <-.
  rewrite <- adapter_appended_len in Hcap.
  destruct (appends_read (adapter_appended cs) Hcap) as (self & Hrun' & W & S & St & Hget).
  cbn [ChunkListAdapter.__init__ ChunkListAdapter._impl ChunkListAdapter._trimmed]
    in Himpl, Tr.
  rewrite Hrun' in Himpl. injection Himpl as Himpl _.
  exists a, rs. split; [exact Hrun|]. intros i.
  unfold ChunkListAdapter.__getitem__.
  cbn [ChunkListAdapter.indexrange ChunkList.keyrange r_start r_stop].
  rewrite <- Himpl. split.
  - intros Hout. destruct (Z.ltb_spec i (ChunkListAdapter._trimmed a)); [reflexivity|].
    rewrite get_reads by exact W.
    replace (i <? ChunkList._stop self) with false by (symmetry; apply Z.ltb_ge; lia).
    now rewrite andb_false_r.
  - intros Hin.
    replace (i <? ChunkListAdapter._trimmed a) with false
      by (symmetry; apply Z.ltb_ge; lia).
    destruct (lookup_lt_is_Some_2 (adapter_appended cs) (Z.to_nat i)) as [v Hv].
    { unfold len in St. lia. }
    exists v. split; [exact Hv|].
    rewrite <- (Hget _ _ Hv). f_equal. lia.
Qed.

Lemma X9_witness :
  exists (a : ChunkListAdapter.t Z) rs,
    ChunkListAdapter.run ChunkListAdapter.__init__
      [ChunkListAdapter.Append 10; ChunkListAdapter.Append 20;
       ChunkListAdapter.TrimBefore 1] = Ret (a, rs) /\
    ChunkListAdapter.__getitem__ a 0 = Ret None /\
    ChunkListAdapter.__getitem__ a 1 = Ret (Some 20).
Proof.
  destruct (X9_adapter_reads_appended_values Z
              [ChunkListAdapter.Append 10; ChunkListAdapter.Append 20;
               ChunkListAdapter.TrimBefore 1]) as (a & rs & Hrun & Hread).
  { unfold capacity. simpl. lia. }
  exists a, rs. split; [exact Hrun|].
  vm_compute in Hrun. injection Hrun as <- <-. split.
  - apply (proj1 (Hread 0)). simpl. lia.
  - destruct (proj2 (Hread 1)) as (v & Hv & Hget); [simpl; lia|].
    vm_compute in Hv. injection Hv as <-. exact Hget.
Defined.

(** ** TrimList: slices and views *)

Section RangeItems.

Lemma range_len_nonneg (r : range) : 0 <= range_len r.
Proof.
  unfold range_len.
  destruct (Z.ltb_spec 0 (r_step r)) as [Hpos|_].
  - destruct (Z.ltb_spec (r_start r) (r_stop r)); [|lia].
    apply Z.add_nonneg_nonneg; [apply Z.div_pos|]; lia.
  - destruct (Z.ltb_spec (r_step r) 0) as [Hneg|_]; [|lia].
    destruct (Z.ltb_spec (r_stop r) (r_start r)); [|lia].
    apply Z.add_nonneg_nonneg; [apply Z.div_pos|]; lia.
Qed.

Lemma range_items_len (r : range) : len (range_items r) = range_len r.
Proof.
  unfold len, range_items. rewrite length_fmap, length_seq.
  pose proof (range_len_nonneg r). lia.
Qed.

Lemma range_items_lookup (r : range) (k : Z) :
  0 <= k < range_len r ->
  range_items r !! Z.to_nat k = Some (r_start r + k * r_step r).
Proof.
  intros Hk. unfold range_items.
  rewrite list_lookup_fmap, lookup_seq_lt by lia. simpl.
  rewrite Z2Nat.id by lia. reflexivity.
Qed.

End RangeItems.

(** X10. Subscripting a [TrimList] with a slice. A slice that leaves out
    its start, stop or step ([tl[2:5]], [tl[:5]], [tl[::2]]) raises
    [TypeError], and one of step 0 raises [ValueError]: only a slice with
    three integers and a step other than 0 builds a view. Reading position
    [k] of that view, for [0 <= k < len(range(start, stop, step))], is reading
    the list itself at index [start + k * step], with the same result or the
    same exception; a position at or beyond that length raises
    [IndexError]. *)
Theorem X10_slice_views :
  forall (T : Type) (self : TrimList.t T),
    (forall a b c : option Z,
       a = None \/ b = None \/ c = None ->
       TrimList.__getitem__ self (TrimList.SubSlice a b c) = Raise TypeError) /\
    (forall x y : Z,
       TrimList.__getitem__ self (TrimList.SubSlice (Some x) (Some y) (Some 0))
         = Raise ValueError) /\
    (forall x y z : Z,
       z <> 0 ->
       exists w,
         TrimList.__getitem__ self (TrimList.SubSlice (Some x) (Some y) (Some z))
           = Ret (inr w) /\
         forall k,
           (0 <= k < range_len (mkrange x y z) ->
              TrimList.wrapper_getitem self w k
                = TrimList.__getitem__ self (TrimList.SubInt (x + k * z))) /\
           (range_len (mkrange x y z) <= k ->
              TrimList.wrapper_getitem self w k = Raise IndexError)).
Proof.
  intros T self. split; [|split].
  - intros a b c Hnone. cbn [TrimList.__getitem__]. unfold range_of.
    destruct a, b, c; try reflexivity.
    destruct Hnone as [H|[H|H]]; discriminate H.
  - intros x y. reflexivity.
  - intros x y z Hz. cbn [TrimList.__getitem__]. unfold range_of.
    replace (z =? 0) with false by (symmetry; now apply Z.eqb_neq).
    ret_step. eexists. split; [reflexivity|]. intros k.
    unfold TrimList.wrapper_getitem. cbn [TrimList._idx_map]. split.
    + intros Hk.
      destruct (getitem_inside (range_items (mkrange x y z)) k) as (i & Hi & Hget).
      { rewrite range_items_len. exact Hk. }
      rewrite range_items_lookup in Hi by exact Hk. injection Hi as <-.
      rewrite Hget. reflexivity.
    + intros Hk. rewrite getitem_outside; [reflexivity|].
      rewrite range_items_len. right. exact Hk.
Qed.

Lemma X10_witness :
  TrimList.__getitem__ (TrimList.mk [10; 20; 30] 5) (TrimList.SubSlice (Some 5) (Some 8) None)
    = Raise TypeError /\
  exists w,
    TrimList.__getitem__ (TrimList.mk [10; 20; 30] 5)
      (TrimList.SubSlice (Some 5) (Some 8) (Some 2)) = Ret (inr w) /\
    TrimList.wrapper_getitem (TrimList.mk [10; 20; 30] 5) w 1
      = TrimList.__getitem__ (TrimList.mk [10; 20; 30] 5) (TrimList.SubInt (5 + 1 * 2)).
Proof.
  split.
  - apply (proj1 (X10_slice_views Z (TrimList.mk [10; 20; 30] 5))). right. right. reflexivity.
  - destruct (proj2 (proj2 (X10_slice_views Z (TrimList.mk [10; 20; 30] 5))) 5 8 2)
      as (w & Hw & Hread); [lia|].
    exists w. split; [exact Hw|]. apply (proj1 (Hread 1)). vm_compute. split.
    + intros H. discriminate H.
    + reflexivity.
Defined.

(** ** The benchmark: populate, then verify *)

Section BenchmarkRuns.
Variable float : Type.
Variable float_lt : float -> float -> bool.
Variable S : Type.
Context `{Benchmark.TrimmableList S}.
Variable self : Benchmark.t float.

Let items_to_add := Benchmark.test_block_size self * Benchmark.blocks_to_add self.
Let items_to_remove := Benchmark.test_block_size self * Benchmark.blocks_to_remove self.

Hypothesis data_len : len (Benchmark.test_data self) = items_to_add.
Hypothesis fewer_removed : 0 <= items_to_remove < items_to_add.

(** [tracks subject added removed]: the subject holds the first [added]
    test values, the first [removed] of them trimmed. *)
Variable tracks : S -> Z -> Z -> Prop.

Hypothesis tracks_append :
  forall subject added removed value,
    tracks subject added removed ->
    0 <= removed <= added -> added < items_to_add ->
    Benchmark.test_data self !! Z.to_nat added = Some value ->
    exists subject' returned,
      Benchmark.proto_append subject value = Ret (subject', returned) /\
      tracks subject' (added + 1) removed.

Hypothesis tracks_trim :
  forall subject added removed,
    tracks subject added removed ->
    0 <= removed < added -> added <= items_to_add ->
    exists subject',
      Benchmark.proto_trim_before subject (removed + 1) = Ret subject' /\
      tracks subject' added (removed + 1).

Hypothesis tracks_read :
  forall subject,
    tracks subject items_to_add items_to_remove ->
    Benchmark.proto_len subject = items_to_add /\
    r_start (Benchmark.proto_indexrange subject) = items_to_remove /\
    r_stop (Benchmark.proto_indexrange subject) = items_to_add /\
    forall idx value,
      items_to_remove <= idx < items_to_add ->
      Benchmark.test_data self !! Z.to_nat idx = Some value ->
      Benchmark.proto_getitem subject idx = Ret (Some value).

Abbreviation loop_ok := (loop_ok tracks items_to_add items_to_remove).
Abbreviation populate_ok := (populate_ok tracks items_to_add items_to_remove).

Lemma progress_ok st has_changed : loop_ok st -> loop_ok (Benchmark.progress self st has_changed).
Proof.
  intros Hok. unfold Benchmark.progress. destruct has_changed; [|exact Hok].
  exact Hok.
Qed.

Lemma add_step_ok r st :
  loop_ok st -> Benchmark.can_add st = true ->
  exists st' has_changed,
    Benchmark.add_step float_lt self r st = Ret (st', has_changed) /\ loop_ok st'.
Proof.
  intros Hok Hcan. pose proof Hok as (Htr & Hra & Ha & Hr & Hca & Hcr).
  unfold Benchmark.add_step.
  destruct (float_lt r (Benchmark.prob_add self)).
  - rewrite Hca in Hcan. apply Z.ltb_lt in Hcan.
    destruct (getitem_inside (Benchmark.test_data self) (Benchmark.added_count st))
      as (value & Hvalue & Hget); [lia|].
    rewrite Hget. ret_step.
    destruct (tracks_append _ _ _ _ Htr Hra Hcan Hvalue) as (subject' & ret & Happ & Htr').
    rewrite Happ. ret_step. eexists _, _. split; [reflexivity|].
    unfold loop_ok. cbn. fold items_to_add. repeat split; try assumption; lia.
  - exists st, false. split; [reflexivity | exact Hok].
Qed.

Lemma remove_step_ok r st has_changed :
  loop_ok st -> Benchmark.wants_remove st = true ->
  exists st' has_changed',
    Benchmark.remove_step float_lt self r st has_changed = Ret (st', has_changed') /\
    loop_ok st'.
Proof.
  intros Hok Hwants. pose proof Hok as (Htr & Hra & Ha & Hr & Hca & Hcr).
  unfold Benchmark.remove_step.
  unfold Benchmark.wants_remove in Hwants. apply andb_true_iff in Hwants as [Hcan Hlt].
  rewrite Hcr in Hcan. apply Z.ltb_lt in Hcan, Hlt.
  destruct (float_lt r (Benchmark.prob_remove self)).
  - destruct (tracks_trim _ _ _ Htr) as (subject' & Htrim & Htr'); [lia | lia |].
    rewrite Htrim. ret_step. eexists _, _. split; [reflexivity|].
    unfold loop_ok. cbn. fold items_to_remove. repeat split; try assumption; lia.
  - exists st, has_changed. split; [reflexivity | exact Hok].
Qed.

(** The loop never raises and never spins; it returns only when all items
    are added and trimmed. *)
Lemma populate_loop_ok (n : nat) :
  forall draws st, (length draws <= n)%nat -> loop_ok st ->
    populate_ok (Benchmark.populate_loop float_lt self draws st).
Proof.
  induction n as [|n IH]; intros draws st Hlen Hok;
    pose proof Hok as (Htr & Hra & Ha & Hr & Hca & Hcr).
  - destruct draws; [|cbn in Hlen; lia]. cbn [Benchmark.populate_loop].
    destruct (Benchmark.can_add st) eqn:Eca; cbn [orb negb].
    + right. eexists _, _, _. split; [reflexivity|]. repeat split; assumption || lia.
    + destruct (Benchmark.can_remove st) eqn:Ecr; cbn [negb].
      * symmetry in Hca, Hcr. apply Z.ltb_ge in Hca. apply Z.ltb_lt in Hcr.
        unfold Benchmark.wants_remove. rewrite Ecr.
        replace (Benchmark.removed_count st <? Benchmark.added_count st) with true
          by (symmetry; apply Z.ltb_lt; lia).
        right. eexists _, _, _. split; [reflexivity|]. repeat split; assumption || lia.
      * symmetry in Hca, Hcr. apply Z.ltb_ge in Hca, Hcr.
        left. eexists _, _. split; [reflexivity|].
        replace items_to_add with (Benchmark.added_count st) by lia.
        replace items_to_remove with (Benchmark.removed_count st) by lia. exact Htr.
  - destruct draws as [|r draws1]; [apply (IH [] st); [cbn; lia | exact Hok]|].
    cbn [Benchmark.populate_loop].
    destruct (Benchmark.can_add st) eqn:Eca; cbn [orb negb].
    + destruct (add_step_ok r st Hok Eca) as (st1 & ch1 & Hadd & Hok1).
      rewrite Hadd. ret_step.
      destruct (Benchmark.wants_remove st1) eqn:Ewr.
      * destruct draws1 as [|r2 draws2].
        -- destruct Hok1 as (Htr1 & Hra1 & Ha1 & Hr1 & _).
           right. eexists _, _, _. split; [reflexivity|]. repeat split; assumption || lia.
        -- destruct (remove_step_ok r2 st1 ch1 Hok1 Ewr) as (st2 & ch2 & Hrem & Hok2).
           rewrite Hrem. ret_step. apply IH; [cbn in Hlen; lia|].
           now apply progress_ok.
      * apply IH; [cbn in Hlen; lia|]. now apply progress_ok.
    + destruct (Benchmark.can_remove st) eqn:Ecr; cbn [negb].
      * assert (Ewr : Benchmark.wants_remove st = true).
        { symmetry in Hca, Hcr. apply Z.ltb_ge in Hca. apply Z.ltb_lt in Hcr.
          unfold Benchmark.wants_remove. rewrite Ecr. apply Z.ltb_lt. lia. }
        rewrite Ewr.
        destruct (remove_step_ok r st false Hok Ewr) as (st2 & ch2 & Hrem & Hok2).
        rewrite Hrem. ret_step. apply IH; [cbn in Hlen; lia|].
        now apply progress_ok.
      * symmetry in Hca, Hcr. apply Z.ltb_ge in Hca, Hcr.
        left. eexists _, _. split; [reflexivity|].
        replace items_to_add with (Benchmark.added_count st) by lia.
        replace items_to_remove with (Benchmark.removed_count st) by lia. exact Htr.
Qed.

(** From a subject that tracks nothing yet, [randomized_populate] passes its
    three assertions when the subject reports length 0 and the window
    [0, 0). *)
Lemma randomized_populate_ok subject draws :
  tracks subject 0 0 ->
  Benchmark.proto_len subject = 0 ->
  r_start (Benchmark.proto_indexrange subject) = 0 ->
  r_stop (Benchmark.proto_indexrange subject) = 0 ->
  populate_ok (Benchmark.randomized_populate float_lt self subject draws).
Proof.
  intros Htr Hlen Hstart Hstop. unfold Benchmark.randomized_populate.
  rewrite Hlen, Hstart, Hstop. cbn [Z.eqb assert]. ret_step.
  apply (populate_loop_ok (length draws)); [lia|].
  unfold loop_ok. cbn. fold items_to_add items_to_remove.
  repeat split; try assumption; lia.
Qed.

(** [sequential_verify] passes on a subject that tracks all the items. *)
Lemma verify_at_ok subject idx :
  tracks subject items_to_add items_to_remove ->
  items_to_remove <= idx < items_to_add ->
  Benchmark.verify_at self subject idx = Ret tt.
Proof.
  intros Htr Hidx. destruct (tracks_read subject Htr) as (_ & _ & _ & Hread).
  unfold Benchmark.verify_at.
  destruct (getitem_inside (Benchmark.test_data self) idx) as (v & Hv & Hget); [lia|].
  rewrite Hget. ret_step. rewrite (Hread idx v Hidx Hv). ret_step.
  rewrite Z.eqb_refl. reflexivity.
Qed.

Lemma sequential_verify_ok subject :
  tracks subject items_to_add items_to_remove ->
  Benchmark.sequential_verify self subject = Ret tt.
Proof.
  intros Htr. destruct (tracks_read subject Htr) as (Hlen & Hstart & Hstop & _).
  unfold Benchmark.sequential_verify. fold items_to_add items_to_remove.
  rewrite Hlen, Hstart, Hstop, !Z.eqb_refl. cbn [assert]. ret_step.
  assert (Hall : forall l, Forall (fun idx => items_to_remove <= idx < items_to_add) l ->
            exists us, for_each (Benchmark.verify_at self subject) l = Ret us).
  { induction l as [|idx l IHl]; intros Hl.
    - exists []. reflexivity.
    - inversion Hl as [|? ? Hidx Hl']; subst.
      destruct (IHl Hl') as (us & Hus). cbn [for_each].
      rewrite (verify_at_ok subject idx Htr Hidx). ret_step. rewrite Hus. ret_step.
      eexists. reflexivity. }
  destruct (Hall (range_items (mkrange items_to_remove items_to_add 1))) as (us & Hus).
  { rewrite range_items_unit by lia. apply Forall_seqZ. lia. }
  rewrite Hus. reflexivity.
Qed.

End BenchmarkRuns.

Section BenchmarkSubjects.
Variable test_data : list Z.

Lemma trim_list_tracks_append (subject : TrimList.t Z) added removed value :
  trim_list_tracks test_data subject added removed ->
  0 <= removed <= added -> added < len test_data ->
  test_data !! Z.to_nat added = Some value ->
  exists subject' returned,
    Benchmark.proto_append subject value = Ret (subject', returned) /\
    trim_list_tracks test_data subject' (added + 1) removed.
Proof.
  unfold trim_list_tracks, len. intros -> Hra Ha Hvalue.
  cbn [Benchmark.proto_append Benchmark.trim_list_subject TrimList.append
       TrimList._data TrimList._pop_count].
  eexists _, _. split; [reflexivity|]. f_equal.
  replace (Z.to_nat (added + 1)) with (Datatypes.S (Z.to_nat added)) by lia.
  rewrite (take_S_r _ _ _ Hvalue), drop_app_le; [reflexivity|].
  rewrite length_take. lia.
Qed.

Lemma trim_list_tracks_trim (subject : TrimList.t Z) added removed :
  trim_list_tracks test_data subject added removed ->
  0 <= removed < added -> added <= len test_data ->
  exists subject',
    Benchmark.proto_trim_before subject (removed + 1) = Ret subject' /\
    trim_list_tracks test_data subject' added (removed + 1).
Proof.
  unfold trim_list_tracks, len. intros -> Hra Ha.
  cbn [Benchmark.proto_trim_before Benchmark.trim_list_subject].
  rewrite trim_before_pops. ret_step. eexists. split; [reflexivity|].
  cbn [fst]. unfold trim_count, len. cbn [TrimList._data TrimList._pop_count].
  rewrite length_drop, length_take.
  replace (Z.to_nat (Z.min (Z.of_nat (Z.to_nat added `min` length test_data
                                      - Z.to_nat removed)%nat)
                           (Z.max 0 (removed + 1 - removed)))) with 1%nat by lia.
  rewrite drop_drop. f_equal. f_equal. lia.
Qed.

Lemma trim_list_tracks_read (subject : TrimList.t Z) removed :
  trim_list_tracks test_data subject (len test_data) removed ->
  0 <= removed <= len test_data ->
  Benchmark.proto_len subject = len test_data /\
  r_start (Benchmark.proto_indexrange subject) = removed /\
  r_stop (Benchmark.proto_indexrange subject) = len test_data /\
  forall idx value,
    removed <= idx < len test_data ->
    test_data !! Z.to_nat idx = Some value ->
    Benchmark.proto_getitem subject idx = Ret (Some value).
Proof.
  unfold trim_list_tracks. intros -> Hr.
  replace (Z.to_nat (len test_data)) with (length test_data) by (unfold len; lia).
  rewrite firstn_all.
  cbn [Benchmark.proto_len Benchmark.proto_indexrange Benchmark.proto_getitem
       Benchmark.trim_list_subject TrimList.__len__ TrimList.indexrange
       TrimList._data TrimList._pop_count r_start r_stop].
  assert (Hlen : removed + len (drop (Z.to_nat removed) test_data) = len test_data).
  { unfold len in *. rewrite length_drop. lia. }
  repeat split; try exact Hlen.
  intros idx value Hidx Hvalue.
  destruct (read_in_window (TrimList.mk (drop (Z.to_nat removed) test_data) removed) idx)
    as (x & Hx & Hget).
  { cbn [TrimList._data TrimList._pop_count]. lia. }
  cbn [TrimList._data TrimList._pop_count] in Hx. rewrite lookup_drop in Hx.
  replace (Z.to_nat removed + Z.to_nat (idx - removed))%nat with (Z.to_nat idx) in Hx by lia.
  assert (x = value) by congruence. subst x.
  rewrite Hget. reflexivity.
Qed.

Lemma adapter_tracks_append (subject : ChunkListAdapter.t Z) added removed value :
  len test_data <= capacity ->
  adapter_tracks test_data subject added removed ->
  0 <= removed <= added -> added < len test_data ->
  test_data !! Z.to_nat added = Some value ->
  exists subject' returned,
    Benchmark.proto_append subject value = Ret (subject', returned) /\
    adapter_tracks test_data subject' (added + 1) removed.
Proof.
  intros Hcap (W & Htr & Hs & Hst & Hpeek) Hra Ha Hvalue.
  cbn [Benchmark.proto_append Benchmark.adapter_subject].
  unfold ChunkListAdapter.append.
  destruct (append_stores _ value W) as (impl' & A & D & S' & St' & W').
  rewrite A. ret_step. eexists _, _. split; [reflexivity|].
  unfold adapter_tracks. cbn [ChunkListAdapter._impl ChunkListAdapter._trimmed].
  split; [exact W'|]. split; [exact Htr|]. split; [congruence|]. split; [lia|].
  intros i v Hi Hv. rewrite D, Hst.
  destruct (Z.eq_dec i added) as [->|Hne].
  - rewrite peek_poke_same; [congruence | apply W | apply path_in_path].
  - rewrite peek_poke_other; [apply Hpeek; [lia | exact Hv] | apply W | apply path_in_path |].
    intros Heq. apply Hne. symmetry. apply path_injective; [unfold capacity in Hcap; lia.. | exact Heq].
Qed.

Lemma adapter_tracks_trim (subject : ChunkListAdapter.t Z) added removed :
  adapter_tracks test_data subject added removed ->
  0 <= removed < added ->
  exists subject',
    Benchmark.proto_trim_before subject (removed + 1) = Ret subject' /\
    adapter_tracks test_data subject' added (removed + 1).
Proof.
  intros (W & Htr & Hs & Hst & Hpeek) Hra.
  cbn [Benchmark.proto_trim_before Benchmark.adapter_subject].
  eexists. split; [reflexivity|].
  unfold adapter_tracks, ChunkListAdapter.trim_before.
  cbn [ChunkListAdapter._impl ChunkListAdapter._trimmed].
  split; [exact W|]. split; [lia|]. split; [exact Hs|]. split; [exact Hst|]. exact Hpeek.
Qed.

Lemma adapter_tracks_read (subject : ChunkListAdapter.t Z) removed :
  adapter_tracks test_data subject (len test_data) removed ->
  0 <= removed <= len test_data ->
  Benchmark.proto_len subject = len test_data /\
  r_start (Benchmark.proto_indexrange subject) = removed /\
  r_stop (Benchmark.proto_indexrange subject) = len test_data /\
  forall idx value,
    removed <= idx < len test_data ->
    test_data !! Z.to_nat idx = Some value ->
    Benchmark.proto_getitem subject idx = Ret (Some value).
Proof.
  intros (W & Htr & Hs & Hst & Hpeek) Hr.
  cbn [Benchmark.proto_len Benchmark.proto_indexrange Benchmark.proto_getitem
       Benchmark.adapter_subject ChunkListAdapter.__len__ ChunkListAdapter.indexrange
       ChunkList.keyrange r_start r_stop].
  split; [exact Hst|]. split; [exact Htr|]. split; [exact Hst|].
  intros idx value Hidx Hvalue. unfold ChunkListAdapter.__getitem__.
  replace (idx <? ChunkListAdapter._trimmed subject) with false
    by (symmetry; apply Z.ltb_ge; lia).
  rewrite get_reads by exact W. rewrite Hs, Hst.
  replace ((0 <=? idx) && (idx <? len test_data)) with true
    by (symmetry; apply andb_true_intro; split; [apply Z.leb_le | apply Z.ltb_lt]; lia).
  rewrite (Hpeek idx value); [reflexivity | lia | exact Hvalue].
Qed.

End BenchmarkSubjects.

Section BenchmarkInit.
Variable float : Type.
Variable float_le : float -> float -> bool.
Variable float_0_01 float_0_99 : float.
Variable hash_of_index : Z -> Z.

(** What [__init__] has asserted when it returns. *)
Lemma benchmark_init_returns test_block_size blocks_to_add blocks_to_remove
    (prob_add prob_remove : float) self :
  Benchmark.__init__ float_le float_0_01 float_0_99 hash_of_index
    test_block_size blocks_to_add blocks_to_remove prob_add prob_remove = Ret self ->
  0 < test_block_size /\ 0 < blocks_to_remove < blocks_to_add /\
  Benchmark.test_block_size self = test_block_size /\
  Benchmark.blocks_to_add self = blocks_to_add /\
  Benchmark.blocks_to_remove self = blocks_to_remove /\
  len (Benchmark.test_data self) = test_block_size * blocks_to_add /\
  0 <= test_block_size * blocks_to_remove < test_block_size * blocks_to_add.
Proof.
  unfold Benchmark.__init__.
  destruct (Z.ltb_spec 0 test_block_size) as [Hbs|]; [|discriminate].
  destruct (Z.ltb_spec 0 blocks_to_remove) as [Hbr|]; [|discriminate].
  destruct (Z.ltb_spec blocks_to_remove blocks_to_add) as [Hba|]; [|discriminate].
  cbn [andb assert]. ret_step.
  destruct (float_le float_0_01 prob_add && float_le prob_add float_0_99); [|discriminate].
  destruct (float_le float_0_01 prob_remove && float_le prob_remove float_0_99);
    [|discriminate].
  cbn [assert]. ret_step. intros Hself. injection Hself as <-.
  cbn [Benchmark.test_block_size Benchmark.blocks_to_add Benchmark.blocks_to_remove
       Benchmark.test_data].
  repeat split; try lia; try nia.
  unfold Benchmark._init_test_data, len. rewrite length_fmap.
  fold (len (range_items (mkrange 0 (test_block_size * blocks_to_add) 1))).
  rewrite range_items_unit by nia. unfold len. rewrite length_seqZ. nia.
Qed.

End BenchmarkInit.

(** X11. The benchmark on [TrimList]. For a benchmark that [__init__]
    has built, whatever [random.random()] returns, [randomized_populate] on a
    new [TrimList] raises nothing, fails none of its assertions and never
    loops without asking for a draw. When it returns, all
    [test_block_size * blocks_to_add] test values are appended and
    [test_block_size * blocks_to_remove] are trimmed: [indexrange()] is that
    range, and [sequential_verify] passes every assertion. While it has not
    returned, [indexrange()] is [range(removed, added)] with
    [removed <= added]. *)
Theorem X11_benchmark_passes_on_trim_list :
  forall (float : Type) (float_lt float_le : float -> float -> bool)
    (float_0_01 float_0_99 : float) (hash_of_index : Z -> Z)
    (test_block_size blocks_to_add blocks_to_remove : Z) (prob_add prob_remove : float)
    (self : Benchmark.t float) (draws : list float),
    Benchmark.__init__ float_le float_0_01 float_0_99 hash_of_index
      test_block_size blocks_to_add blocks_to_remove prob_add prob_remove = Ret self ->
    (exists subject lines,
       Benchmark.randomized_populate float_lt self TrimList.__init__ draws
         = Ret (Benchmark.Finished subject lines) /\
       TrimList.indexrange subject
         = mkrange (test_block_size * blocks_to_remove) (test_block_size * blocks_to_add) 1 /\
       Benchmark.sequential_verify self subject = Ret tt) \/
    (exists subject added removed,
       Benchmark.randomized_populate float_lt self TrimList.__init__ draws
         = Ret (Benchmark.OutOfDraws subject added removed) /\
       0 <= removed <= added /\
       added <= test_block_size * blocks_to_add /\
       removed <= test_block_size * blocks_to_remove /\
       TrimList.indexrange subject = mkrange removed added 1).
Proof.
  intros float float_lt float_le f01 f99 hash bs ba br pa pr self draws Hinit.
  destruct (benchmark_init_returns _ _ _ _ _ _ _ _ _ _ _ Hinit)
    as (Hbs & Hbr & Ebs & Eba & Ebr & Hlen & Hfewer).
  rewrite <- Ebs, <- Eba, <- Ebr in *.
  assert (Happend : forall subject added removed value,
    trim_list_tracks (Benchmark.test_data self) subject added removed ->
    0 <= removed <= added ->
    added < Benchmark.test_block_size self * Benchmark.blocks_to_add self ->
    Benchmark.test_data self !! Z.to_nat added = Some value ->
    exists subject' returned,
      Benchmark.proto_append subject value = Ret (subject', returned) /\
      trim_list_tracks (Benchmark.test_data self) subject' (added + 1) removed).
  { intros subject added removed value Htr Hra Ha Hv.
    apply trim_list_tracks_append; try assumption. lia. }
  assert (Htrim : forall subject added removed,
    trim_list_tracks (Benchmark.test_data self) subject added removed ->
    0 <= removed < added ->
    added <= Benchmark.test_block_size self * Benchmark.blocks_to_add self ->
    exists subject',
      Benchmark.proto_trim_before subject (removed + 1) = Ret subject' /\
      trim_list_tracks (Benchmark.test_data self) subject' added (removed + 1)).
  { intros subject added removed Htr Hra Ha.
    apply trim_list_tracks_trim; try assumption. lia. }
  destruct (randomized_populate_ok float float_lt _ self Hlen Hfewer
              (trim_list_tracks (Benchmark.test_data self)) Happend Htrim
              TrimList.__init__ draws)
    as [(subject & lines & Hrun & Htr)|(subject & added & removed & Hrun & Htr & Hra & Ha & Hr)];
    try reflexivity.
  - left. exists subject, lines. split; [exact Hrun|].
    rewrite <- Hlen in Htr.
    destruct (trim_list_tracks_read _ subject _ Htr) as (_ & Hstart & Hstop & Hread); [lia|].
    split.
    + change (Benchmark.proto_indexrange subject)
        with (TrimList.indexrange subject) in Hstart, Hstop.
      transitivity (mkrange (r_start (TrimList.indexrange subject))
                            (r_stop (TrimList.indexrange subject)) 1); [reflexivity|].
      rewrite Hstart, Hstop, Hlen. reflexivity.
    + apply (sequential_verify_ok float _ self Hlen Hfewer
               (trim_list_tracks (Benchmark.test_data self))); [|rewrite <- Hlen; exact Htr].
      intros s Hs. rewrite <- Hlen in Hs |- *.
      apply trim_list_tracks_read; [exact Hs | lia].
  - right. exists subject, added, removed. split; [exact Hrun|].
    split; [exact Hra|]. split; [exact Ha|]. split; [exact Hr|].
    unfold trim_list_tracks in Htr. subst subject. unfold TrimList.indexrange.
    cbn [TrimList._data TrimList._pop_count]. f_equal.
    unfold len in *. rewrite length_drop, length_take. lia.
Qed.

Lemma X11_witness :
  exists self subject lines,
    Benchmark.__init__ Z.leb 1 99 (fun idx => 7 * idx) 1 2 1 50 50 = Ret self /\
    Benchmark.randomized_populate Z.ltb self TrimList.__init__ [0; 0; 0]
      = Ret (Benchmark.Finished subject lines) /\
    TrimList.indexrange subject = mkrange 1 2 1 /\
    Benchmark.sequential_verify self subject = Ret tt.
Proof.
  eexists. 
  destruct (X11_benchmark_passes_on_trim_list Z Z.ltb Z.leb 1 99 (fun idx => 7 * idx)
              1 2 1 50 50 _ [0; 0; 0] eq_refl)
    as [(subject & lines & Hrun & Hrange & Hverify)|(subject & a & r & Hrun & _)].
  - exists subject, lines. split; [reflexivity|]. split; [exact Hrun|].
    split; [exact Hrange | exact Hverify].
  - vm_compute in Hrun. discriminate Hrun.
Defined.

(** X12. The benchmark on [ChunkListAdapter]. For a benchmark that
    [__init__] has built with no more than 128^3 items to add, whatever
    [random.random()] returns, [randomized_populate] on a new
    [ChunkListAdapter] raises nothing, fails none of its assertions and never
    loops without asking for a draw. When it returns, [indexrange()] is
    [range(test_block_size * blocks_to_remove, test_block_size * blocks_to_add)]
    and [sequential_verify] passes every assertion. While it has not returned,
    [indexrange()] is [range(removed, added)] with [removed <= added]: the
    benchmark never trims beyond what it has appended. *)
Theorem X12_benchmark_passes_on_adapter :
  forall (float : Type) (float_lt float_le : float -> float -> bool)
    (float_0_01 float_0_99 : float) (hash_of_index : Z -> Z)
    (test_block_size blocks_to_add blocks_to_remove : Z) (prob_add prob_remove : float)
    (self : Benchmark.t float) (draws : list float),
    Benchmark.__init__ float_le float_0_01 float_0_99 hash_of_index
      test_block_size blocks_to_add blocks_to_remove prob_add prob_remove = Ret self ->
    test_block_size * blocks_to_add <= capacity ->
    (exists subject lines,
       Benchmark.randomized_populate float_lt self ChunkListAdapter.__init__ draws
         = Ret (Benchmark.Finished subject lines) /\
       ChunkListAdapter.indexrange subject
         = mkrange (test_block_size * blocks_to_remove) (test_block_size * blocks_to_add) 1 /\
       Benchmark.sequential_verify self subject = Ret tt) \/
    (exists subject added removed,
       Benchmark.randomized_populate float_lt self ChunkListAdapter.__init__ draws
         = Ret (Benchmark.OutOfDraws subject added removed) /\
       0 <= removed <= added /\
       added <= test_block_size * blocks_to_add /\
       removed <= test_block_size * blocks_to_remove /\
       ChunkListAdapter.indexrange subject = mkrange removed added 1).
Proof.
  intros float float_lt float_le f01 f99 hash bs ba br pa pr self draws Hinit Hcap.
  destruct (benchmark_init_returns _ _ _ _ _ _ _ _ _ _ _ Hinit)
    as (Hbs & Hbr & Ebs & Eba & Ebr & Hlen & Hfewer).
  rewrite <- Ebs, <- Eba, <- Ebr in *.
  assert (Happend : forall subject added removed value,
    adapter_tracks (Benchmark.test_data self) subject added removed ->
    0 <= removed <= added ->
    added < Benchmark.test_block_size self * Benchmark.blocks_to_add self ->
    Benchmark.test_data self !! Z.to_nat added = Some value ->
    exists subject' returned,
      Benchmark.proto_append subject value = Ret (subject', returned) /\
      adapter_tracks (Benchmark.test_data self) subject' (added + 1) removed).
  { intros subject added removed value Htr Hra Ha Hv.
    apply adapter_tracks_append; try assumption; lia. }
  assert (Htrim : forall subject added removed,
    adapter_tracks (Benchmark.test_data self) subject added removed ->
    0 <= removed < added ->
    added <= Benchmark.test_block_size self * Benchmark.blocks_to_add self ->
    exists subject',
      Benchmark.proto_trim_before subject (removed + 1) = Ret subject' /\
      adapter_tracks (Benchmark.test_data self) subject' added (removed + 1)).
  { intros subject added removed Htr Hra Ha.
    apply adapter_tracks_trim; assumption. }
  destruct (randomized_populate_ok float float_lt _ self Hlen Hfewer
              (adapter_tracks (Benchmark.test_data self)) Happend Htrim
              ChunkListAdapter.__init__ draws)
    as [(subject & lines & Hrun & Htr)|(subject & added & removed & Hrun & Htr & Hra & Ha & Hr)];
    try reflexivity.
  - split; [exact wf_init|]. do 3 (split; [reflexivity|]). intros i v Hi. lia.
  - left. exists subject, lines. split; [exact Hrun|].
    rewrite <- Hlen in Htr.
    destruct (adapter_tracks_read _ subject _ Htr) as (_ & Hstart & Hstop & Hread); [lia|].
    split.
    + change (Benchmark.proto_indexrange subject)
        with (ChunkListAdapter.indexrange subject) in Hstart, Hstop.
      transitivity (mkrange (r_start (ChunkListAdapter.indexrange subject))
                            (r_stop (ChunkListAdapter.indexrange subject)) 1); [reflexivity|].
      rewrite Hstart, Hstop, Hlen. reflexivity.
    + apply (sequential_verify_ok float _ self Hlen Hfewer
               (adapter_tracks (Benchmark.test_data self))); [|rewrite <- Hlen; exact Htr].
      intros s Hs. rewrite <- Hlen in Hs |- *.
      apply adapter_tracks_read; [exact Hs | lia].
  - right. exists subject, added, removed. split; [exact Hrun|].
    split; [exact Hra|]. split; [exact Ha|]. split; [exact Hr|].
    destruct Htr as (_ & Etr & _ & Est & _). unfold ChunkListAdapter.indexrange.
    cbn [ChunkList.keyrange r_stop]. now rewrite Etr, Est.
Qed.

Lemma X12_witness :
  exists self subject lines,
    Benchmark.__init__ Z.leb 1 99 (fun idx => 7 * idx) 1 2 1 50 50 = Ret self /\
    Benchmark.randomized_populate Z.ltb self ChunkListAdapter.__init__ [0; 0; 0]
      = Ret (Benchmark.Finished subject lines) /\
    ChunkListAdapter.indexrange subject = mkrange 1 2 1 /\
    Benchmark.sequential_verify self subject = Ret tt.
Proof.
  eexists.
  destruct (X12_benchmark_passes_on_adapter Z Z.ltb Z.leb 1 99 (fun idx => 7 * idx)
              1 2 1 50 50 _ [0; 0; 0] eq_refl)
    as [(subject & lines & Hrun & Hrange & Hverify)|(subject & a & r & Hrun & _)].
  - unfold capacity. lia.
  - exists subject, lines. split; [reflexivity|]. split; [exact Hrun|].
    split; [exact Hrange | exact Hverify].
  - vm_compute in Hrun. discriminate Hrun.
Defined.

(** ** More edges of ChunkList and TrimList *)

(** X13. [ChunkList.enumerate] with a slice whose step is neither [None]
    nor 1, in every state reached by appends and writes: the slice is turned
    into [range(start, stop, step)], so a slice that leaves out its start or
    stop raises [TypeError] and one of step 0 raises [ValueError]; any other
    yields the pairs of the items of that range that lie in the window, in the
    order of the range (descending for a negative step). *)
Theorem X13_enumerate_stepped_slice :
  forall (T : Type) (cs : list (ChunkList.call T)) (a b : option Z) (c : Z),
    c <> 1 ->
    exists self log,
      ChunkList.run ChunkList.__init__ cs = Ret (self, log) /\
      (a = None \/ b = None ->
         ChunkList.enumerate self (ChunkList.SelSlice a b (Some c)) = Raise TypeError) /\
      (forall x y, a = Some x -> b = Some y -> c = 0 ->
         ChunkList.enumerate self (ChunkList.SelSlice a b (Some c)) = Raise ValueError) /\
      (forall x y, a = Some x -> b = Some y -> c <> 0 ->
         yields self (selected self (range_items (mkrange x y c)))
           (ChunkList.enumerate self (ChunkList.SelSlice a b (Some c)))).
Proof.
  intros T cs a b c Hc.
  destruct (run_stores cs _ wf_init) as (self & log & Hrun & W & _).
  exists self, log. split; [exact Hrun|].
  pose proof (enumerate_stepped_slice self a b c W Hc) as Hslice.
  unfold range_of in Hslice. split; [|split].
  - intros [-> | ->]; [exact Hslice|]. destruct a; exact Hslice.
  - intros x y -> -> ->. exact Hslice.
  - intros x y -> -> Hne.
    replace (c =? 0) with false in Hslice by (symmetry; now apply Z.eqb_neq).
    exact Hslice.
Qed.

Lemma X13_witness :
  exists (self : ChunkList.t Z) log,
    ChunkList.run ChunkList.__init__
      [ChunkList.Append 10; ChunkList.Append 20; ChunkList.Append 30] = Ret (self, log) /\
    ChunkList.enumerate self (ChunkList.SelSlice None (Some 3) (Some 2)) = Raise TypeError /\
    ChunkList.enumerate self (ChunkList.SelSlice (Some 4) (Some (-1)) (Some (-2)))
      = Ret [(2, Some 30); (0, Some 10)].
Proof.
  destruct (X13_enumerate_stepped_slice Z
              [ChunkList.Append 10; ChunkList.Append 20; ChunkList.Append 30]
              None (Some 3) 2) as (self & log & Hrun & Htype & _); [lia|].
  exists self, log. split; [exact Hrun|]. split; [apply Htype; left; reflexivity|].
  vm_compute in Hrun. injection Hrun as <- <-. reflexivity.
Defined.

(** X14. The keys of [_decompose]. For every integer index, negative ones
    included, each of the three keys lies in [0, 128), and the remainder is the
    index divided by 128^3, rounded down: it is 0 exactly for the indices
    inside the capacity [0, 128^3). *)
Theorem X14_decompose_keys_in_range :
  forall idx : Z,
    let '(remainder, k1, k2, k3) := ChunkList._decompose idx in
    0 <= k1 < 128 /\ 0 <= k2 < 128 /\ 0 <= k3 < 128 /\
    remainder = idx / capacity /\
    (remainder = 0 <-> 0 <= idx < capacity).
Proof.
  intros idx. rewrite decompose_eq. unfold capacity.
  repeat split; Z.div_mod_to_equations; lia.
Qed.

(** X15. A [TrimList] is a queue. [m] calls of [pop_left] in a row raise
    nothing and return the items of the deque from the front, in order,
    then [None] for every call made after the list has run empty; [start]
    moves up by the number of items returned and never passes [stop]. *)
Theorem X15_pop_left_drains_in_order :
  forall (T : Type) (m : nat) (self : TrimList.t T),
    TrimList.run self (replicate m TrimList.PopLeft)
    = Ret (TrimList.mk (drop m (TrimList._data self))
                       (TrimList._pop_count self
                        + Z.of_nat (m `min` length (TrimList._data self))),
           TrimList.Popped <$>
             ((Some <$> take m (TrimList._data self))
              ++ replicate (m - length (TrimList._data self)) None)).
Proof.
  intros T. induction m as [|m IH]; intros [data pc].
  - cbn. rewrite Z.add_0_r. reflexivity.
  - cbn [replicate TrimList.run TrimList.step]. rewrite pop_left_pops. ret_step.
    cbn [TrimList._data TrimList._pop_count]. destruct data as [|x d]; ret_step.
    + rewrite IH. ret_step. cbn [TrimList._data TrimList._pop_count length].
      rewrite !drop_nil, !take_nil, Nat.min_0_r, Nat.sub_0_r. reflexivity.
    + rewrite IH. ret_step. cbn [TrimList._data TrimList._pop_count length].
      cbn [drop take Nat.sub Nat.min]. do 2 f_equal. f_equal. lia.
Qed.
